(** * Elsevier review tracker: the event aggregation of [formatReviewData]

    A shallow embedding of [formatReviewData] and [getStatus]
    (the script part of the tracker view) and of the types of
    [types/review.ts].

    Modelling choices.
    - A JavaScript [number] holding an integer is a [Z]; the property key
      [String(n)] of an integer [n] is identified with [n] itself, and
      [Number(key)] with the identity.
    - A JavaScript object used as a map is an association list holding the own
      properties in order of creation.  [Object.entries] and [Object.values]
      follow the own-property order of ECMAScript: the keys that are array
      indices ([0 <= k < 2^32 - 1]) in ascending numeric order first, then the
      other keys in order of creation.
    - [Array.prototype.sort] with a consistent comparator is a stable sort;
      it is modelled by a stable insertion sort, whose result is the one
      stable sorted arrangement.
    - The reviewer objects mutated inside [forEach] are owned by one slot of
      the nested map each; the mutation is a write-back into that slot. *)

From Stdlib Require Import ZArith List String Bool Lia.
From Stdlib Require Import Sorting.Sorted Sorting.Permutation.
Import ListNotations.
Open Scope Z_scope.

(** ** Arrays *)

Section ArraySort.
Context {A : Type}.
Variable compareFn : A -> A -> Z.

(** [x] goes in front of the first element it does not exceed: it came
    earlier in the array than everything already placed. *)
Fixpoint sort_insert (x : A) (l : list A) : list A :=
  match l with
  | [] => [x]
  | y :: l' => if compareFn x y <=? 0 then x :: y :: l' else y :: sort_insert x l'
  end.

Definition Array_sort (l : list A) : list A := fold_right sort_insert [] l.

End ArraySort.

(** ** Objects used as maps with numeric keys *)

Module JSObject.

Section Obj.
Context {V : Type}.

Definition t : Type := list (Z * V).

Fixpoint get (o : t) (k : Z) : option V :=
  match o with
  | [] => None
  | (k', v) :: o' => if k' =? k then Some v else get o' k
  end.

(** [o[k] = v]: an existing property keeps its place, a new one is created
    last. *)
Fixpoint set (o : t) (k : Z) (v : V) : t :=
  match o with
  | [] => [(k, v)]
  | (k', v') :: o' => if k' =? k then (k', v) :: o' else (k', v') :: set o' k v
  end.

Definition isArrayIndex (k : Z) : bool := (0 <=? k) && (k <? 2 ^ 32 - 1).

Definition entries (o : t) : list (Z * V) :=
  Array_sort (fun a b => fst a - fst b) (filter (fun p => isArrayIndex (fst p)) o)
  ++ filter (fun p => negb (isArrayIndex (fst p))) o.

Definition values (o : t) : list V := map snd (entries o).

Definition keys (o : t) : list Z := map fst o.

End Obj.

Arguments t : clear implicits.

End JSObject.

(** ** The types of [types/review.ts] *)

Inductive ReviewEventType : Type :=
| Invited    (* 'REVIEWER_INVITED' *)
| Accepted   (* 'REVIEWER_ACCEPTED' *)
| Completed. (* 'REVIEWER_COMPLETED' *)

Definition ReviewEventType_eqb (a b : ReviewEventType) : bool :=
  match a, b with
  | Invited, Invited | Accepted, Accepted | Completed, Completed => true
  | _, _ => false
  end.

Module ReviewEvent.
Record t : Type := mk {
  Date : Z;
  Event : ReviewEventType;
  Revision : Z;
  Id : Z
}.
End ReviewEvent.

Module ReviewData.
Record t : Type := mk {
  Uuid : string;
  CorrespondingAuthor : string;
  DocumentId : Z;
  FirstAuthor : string;
  JournalAcronym : string;
  JournalName : string;
  LastUpdated : Z;
  LatestRevisionNumber : Z;
  ManuscriptTitle : string;
  PubdNumber : string;
  ReviewEvents : list ReviewEvent.t;
  Status : Z;
  SubmissionDate : Z
}.
End ReviewData.

Module ReviewerData.
Record t : Type := mk {
  Id : Z;
  InvitedDate : Z;
  AcceptedDate : Z;
  CompletedDate : Z;
  LastUpdated : Z;
  Collapsed : bool
}.

Definition with_InvitedDate (r : t) (d : Z) : t :=
  mk (Id r) d (AcceptedDate r) (CompletedDate r) (LastUpdated r) (Collapsed r).
Definition with_AcceptedDate (r : t) (d : Z) : t :=
  mk (Id r) (InvitedDate r) d (CompletedDate r) (LastUpdated r) (Collapsed r).
Definition with_CompletedDate (r : t) (d : Z) : t :=
  mk (Id r) (InvitedDate r) (AcceptedDate r) d (LastUpdated r) (Collapsed r).
Definition with_LastUpdated (r : t) (d : Z) : t :=
  mk (Id r) (InvitedDate r) (AcceptedDate r) (CompletedDate r) d (Collapsed r).
End ReviewerData.

Definition ReviewerMap : Type := JSObject.t ReviewerData.t.
Definition RevisionMap : Type := JSObject.t ReviewerMap.

Module RevisionData.
Record t : Type := mk {
  Id : Z;
  Collapsed : bool;
  Reviewers : list ReviewerData.t
}.
End RevisionData.

Module FormattedReviewData.
Record t : Type := mk {
  CorrespondingAuthor : string;
  JournalAcronym : string;
  JournalName : string;
  LastUpdated : Z;
  ManuscriptTitle : string;
  SubmissionDate : Z;
  Revisions : list RevisionData.t
}.
End FormattedReviewData.

(** ** [formatReviewData] *)

(** The reviewer object created on the first event of a key. *)
Definition newReviewer (reviewerId : Z) : ReviewerData.t :=
  ReviewerData.mk reviewerId 0 0 0 0 true.

(** The four conditional assignments at the end of the [forEach] callback. *)
Definition applyEvent (event : ReviewEvent.t) (reviewer : ReviewerData.t)
  : ReviewerData.t :=
  let reviewer :=
    if ReviewEventType_eqb (ReviewEvent.Event event) Invited
    then ReviewerData.with_InvitedDate reviewer (ReviewEvent.Date event)
    else reviewer in
  let reviewer :=
    if ReviewEventType_eqb (ReviewEvent.Event event) Accepted
    then ReviewerData.with_AcceptedDate reviewer (ReviewEvent.Date event)
    else reviewer in
  let reviewer :=
    if ReviewEventType_eqb (ReviewEvent.Event event) Completed
    then ReviewerData.with_CompletedDate reviewer (ReviewEvent.Date event)
    else reviewer in
  if ReviewEvent.Date event >? ReviewerData.LastUpdated reviewer
  then ReviewerData.with_LastUpdated reviewer (ReviewEvent.Date event)
  else reviewer.

(** One call of the [forEach] callback on the map [groupedEvents]. *)
Definition forEach_body (groupedEvents : RevisionMap) (event : ReviewEvent.t)
  : RevisionMap :=
  let revision := ReviewEvent.Revision event in
  let reviewerId := ReviewEvent.Id event in
  let reviewerMap : ReviewerMap :=
    match JSObject.get groupedEvents revision with
    | Some m => m
    | None => []
    end in
  let reviewer :=
    match JSObject.get reviewerMap reviewerId with
    | Some r => r
    | None => newReviewer reviewerId
    end in
  JSObject.set groupedEvents revision
    (JSObject.set reviewerMap reviewerId (applyEvent event reviewer)).

Definition groupEvents (events : list ReviewEvent.t) : RevisionMap :=
  fold_left forEach_body events [].

Definition toRevisionData (entry : Z * ReviewerMap) : RevisionData.t :=
  RevisionData.mk
    (fst entry)
    true
    (Array_sort
       (fun a b => ReviewerData.LastUpdated a - ReviewerData.LastUpdated b)
       (JSObject.values (snd entry))).

Definition revisionsOf (groupedEvents : RevisionMap) : list RevisionData.t :=
  map toRevisionData
    (Array_sort (fun a b => fst a - fst b) (JSObject.entries groupedEvents)).

Definition formatReviewData (reviewData : option ReviewData.t)
  : option FormattedReviewData.t :=
  match reviewData with
  | None => None
  | Some reviewData =>
      Some (FormattedReviewData.mk
              (ReviewData.CorrespondingAuthor reviewData)
              (ReviewData.JournalAcronym reviewData)
              (ReviewData.JournalName reviewData)
              (ReviewData.LastUpdated reviewData)
              (ReviewData.ManuscriptTitle reviewData)
              (ReviewData.SubmissionDate reviewData)
              (revisionsOf (groupEvents (ReviewData.ReviewEvents reviewData))))
  end.

(** ** [getStatus] *)

Inductive StatusLabel : Type :=
| StatusCompleted | StatusAccepted | StatusInvited | StatusUnknown.

(** A number is truthy when it is not zero. *)
Definition truthy (n : Z) : bool := negb (n =? 0).

Definition getStatus (reviewer : ReviewerData.t) : StatusLabel :=
  if truthy (ReviewerData.CompletedDate reviewer) then StatusCompleted
  else if truthy (ReviewerData.AcceptedDate reviewer) then StatusAccepted
  else if truthy (ReviewerData.InvitedDate reviewer) then StatusInvited
  else StatusUnknown.

(** ** The counters, the toggles and [getDaysSince] *)

Definition getInvitedCount (reviewers : list ReviewerData.t) : nat :=
  List.length (filter (fun reviewer => truthy (ReviewerData.InvitedDate reviewer))
                      reviewers).

Definition getAcceptedCount (reviewers : list ReviewerData.t) : nat :=
  List.length (filter (fun reviewer => truthy (ReviewerData.AcceptedDate reviewer))
                      reviewers).

Definition getCompletedCount (reviewers : list ReviewerData.t) : nat :=
  List.length (filter (fun reviewer => truthy (ReviewerData.CompletedDate reviewer))
                      reviewers).

Definition toggleRevision (revision : RevisionData.t) : RevisionData.t :=
  RevisionData.mk (RevisionData.Id revision)
                  (negb (RevisionData.Collapsed revision))
                  (RevisionData.Reviewers revision).

Definition toggleReviewer (reviewer : ReviewerData.t) : ReviewerData.t :=
  ReviewerData.mk (ReviewerData.Id reviewer) (ReviewerData.InvitedDate reviewer)
                  (ReviewerData.AcceptedDate reviewer)
                  (ReviewerData.CompletedDate reviewer)
                  (ReviewerData.LastUpdated reviewer)
                  (negb (ReviewerData.Collapsed reviewer)).

(** A time value a [Date] can hold: at most 8.64e15 milliseconds from the
    epoch; [new Date(v)] is an invalid date, with time value NaN, outside. *)
Definition validTimeValue (ms : Z) : bool := Z.abs ms <=? 8640000000000000.

(** [getDaysSince], with the reading of the clock ([new Date().getTime()], in
    milliseconds) as the argument [now].  [None] stands for NaN.  While
    the difference is below 2^53 in magnitude it is an exact integer and the
    quotient is below 2^27, where the floor of the floating-point quotient is
    the floor of the exact one; the properties of [getDaysSince] are stated
    in that range. *)
Definition getDaysSince (now : Z) (timestamp : Z) : option Z :=
  if validTimeValue (timestamp * 1000)
  then Some ((now - timestamp * 1000) / (1000 * 60 * 60 * 24))
  else None.

(** ** Sample inputs *)

Definition mkData (events : list ReviewEvent.t) : ReviewData.t :=
  ReviewData.mk "u" "author" 7 "first" "ACR" "Journal" 1700000000 1
    "Title" "pubd" events 3 1600000000.

Definition ev (t : Z) (k : ReviewEventType) (rev id : Z) : ReviewEvent.t :=
  ReviewEvent.mk t k rev id.


(** ** Vocabulary of the properties *)

(** The key of an event: (revision number, reviewer id). *)
Definition key (e : ReviewEvent.t) : Z * Z :=
  (ReviewEvent.Revision e, ReviewEvent.Id e).

Definition key_eqb (a b : Z * Z) : bool :=
  (fst a =? fst b) && (snd a =? snd b).

Definition key_eq_dec (a b : Z * Z) : {a = b} + {a <> b}.
Proof. decide equality; apply Z.eq_dec. Defined.

(** The events of one key, in input order. *)
Definition eventsOf (k : Z * Z) (events : list ReviewEvent.t) : list ReviewEvent.t :=
  filter (fun e => key_eqb (key e) k) events.

(** The reviewer state stored for a key in the nested map. *)
Definition lookupReviewer (g : RevisionMap) (rev id : Z) : option ReviewerData.t :=
  match JSObject.get g rev with
  | Some m => JSObject.get m id
  | None => None
  end.

(** [before a b l]: [a] stands at some position of [l] and [b] at a later one. *)
Fixpoint before {A : Type} (a b : A) (l : list A) : Prop :=
  match l with
  | [] => False
  | x :: l' => (x = a /\ In b l') \/ before a b l'
  end.

(** Position of the first occurrence of [k] ([length l] when there is none). *)
Fixpoint firstIndex (k : Z * Z) (l : list (Z * Z)) : nat :=
  match l with
  | [] => O
  | x :: l' => if key_eqb x k then O else S (firstIndex k l')
  end.

(** [m] is the greatest element of [l]. *)
Definition is_max (m : Z) (l : list Z) : Prop :=
  In m l /\ Forall (fun x => x <= m) l.

(** Number of reviewer states over all revision groups. *)
Definition countReviewers (revs : list RevisionData.t) : nat :=
  list_sum (map (fun g => List.length (RevisionData.Reviewers g)) revs).

(** Number of distinct keys among the events. *)
Definition distinctKeys (events : list ReviewEvent.t) : nat :=
  List.length (nodup key_eq_dec (map key events)).

(** The keys of the reviewer states of the output. *)
Definition outputKeys (revs : list RevisionData.t) : list (Z * Z) :=
  flat_map (fun g => map (fun r => (RevisionData.Id g, ReviewerData.Id r))
                         (RevisionData.Reviewers g)) revs.

(** The reading of "well-formed sequence of ReviewEvent" that the typed
    model can express: no negative revision number. *)
Definition wellFormedEvents (events : list ReviewEvent.t) : bool :=
  forallb (fun e => 0 <=? ReviewEvent.Revision e) events.

(** [events'] reorders [events] without exchanging two events of one key. *)
Definition reordersDistinctKeys (events events' : list ReviewEvent.t) : Prop :=
  Permutation events events' /\
  forall k, eventsOf k events = eventsOf k events'.

(** Own-property order of two keys of one reviewer map, given the events
    that created its properties. *)
Definition ownKeyOrder (events : list ReviewEvent.t) (rev a b : Z) : Prop :=
  if JSObject.isArrayIndex a
  then (if JSObject.isArrayIndex b then a < b else True)
  else (if JSObject.isArrayIndex b then False
        else (firstIndex (rev, a) (map key events)
              < firstIndex (rev, b) (map key events))%nat).

(** What one event does to the state of key [k]. *)
Definition foldKey (k : Z * Z) (st : option ReviewerData.t) (e : ReviewEvent.t)
  : option ReviewerData.t :=
  if key_eqb (key e) k
  then Some (applyEvent e (match st with
                           | Some r => r
                           | None => newReviewer (snd k)
                           end))
  else st.

(** Shape of the nested map: no key twice at either level, and no revision
    without a reviewer. *)
Definition wfMap (g : RevisionMap) : Prop :=
  NoDup (JSObject.keys g) /\
  forall rev rm, In (rev, rm) g -> NoDup (JSObject.keys rm) /\ rm <> [].

(** The field an event kind writes. *)
Definition dateField (k : ReviewEventType) (r : ReviewerData.t) : Z :=
  match k with
  | Invited => ReviewerData.InvitedDate r
  | Accepted => ReviewerData.AcceptedDate r
  | Completed => ReviewerData.CompletedDate r
  end.

(** At least one of the three dates is set. *)
Definition hasDate (r : ReviewerData.t) : Prop :=
  ReviewerData.InvitedDate r <> 0 \/
  ReviewerData.AcceptedDate r <> 0 \/
  ReviewerData.CompletedDate r <> 0.

(** The call as its caller sees it.  The body of [formatReviewData] has no
    [throw], and on values of the declared types none of its operations
    throws: every call returns. *)
Inductive AggregationError : Type := InvalidInput.

Definition callFormatReviewData (reviewData : option ReviewData.t)
  : AggregationError + option FormattedReviewData.t :=
  inr (formatReviewData reviewData).

(** The same manuscript record with another event list. *)
Definition withEvents (rd : ReviewData.t) (events : list ReviewEvent.t)
  : ReviewData.t :=
  ReviewData.mk
    (ReviewData.Uuid rd) (ReviewData.CorrespondingAuthor rd)
    (ReviewData.DocumentId rd) (ReviewData.FirstAuthor rd)
    (ReviewData.JournalAcronym rd) (ReviewData.JournalName rd)
    (ReviewData.LastUpdated rd) (ReviewData.LatestRevisionNumber rd)
    (ReviewData.ManuscriptTitle rd) (ReviewData.PubdNumber rd)
    events
    (ReviewData.Status rd) (ReviewData.SubmissionDate rd).

(** The date an event kind leaves in its field after the events [l] of one
    key: that of the last event of the kind, 0 when there is none. *)
Definition lastDateOf (k : ReviewEventType) (l : list ReviewEvent.t) : Z :=
  last (map ReviewEvent.Date
          (filter (fun e => ReviewEventType_eqb (ReviewEvent.Event e) k) l)) 0.

(** Some event of the key has kind [k]. *)
Definition hasEvent (k : ReviewEventType) (ky : Z * Z)
  (events : list ReviewEvent.t) : bool :=
  existsb (fun e => ReviewEventType_eqb (ReviewEvent.Event e) k) (eventsOf ky events).

(** The reviewer ids with an event of kind [k] in revision [rev]. *)
Definition reviewersWith (k : ReviewEventType) (rev : Z)
  (events : list ReviewEvent.t) : list Z :=
  nodup Z.eq_dec
    (map ReviewEvent.Id
       (filter (fun e => (ReviewEvent.Revision e =? rev)
                         && ReviewEventType_eqb (ReviewEvent.Event e) k) events)).

(** The counter shown for a stage. *)
Definition countFor (k : ReviewEventType) (reviewers : list ReviewerData.t) : nat :=
  match k with
  | Invited => getInvitedCount reviewers
  | Accepted => getAcceptedCount reviewers
  | Completed => getCompletedCount reviewers
  end.

Definition StatusLabel_eqb (a b : StatusLabel) : bool :=
  match a, b with
  | StatusCompleted, StatusCompleted | StatusAccepted, StatusAccepted
  | StatusInvited, StatusInvited | StatusUnknown, StatusUnknown => true
  | _, _ => false
  end.

(** Number of reviewers whose status is [s]. *)
Definition statusCount (s : StatusLabel) (reviewers : list ReviewerData.t) : nat :=
  List.length (filter (fun r => StatusLabel_eqb (getStatus r) s) reviewers).

(** [r] is listed in the group of revision [rev]. *)
Definition inOutput (out : FormattedReviewData.t) (rev : Z) (r : ReviewerData.t)
  : Prop :=
  exists grp, In grp (FormattedReviewData.Revisions out) /\
              RevisionData.Id grp = rev /\ In r (RevisionData.Reviewers grp).

(** No date field is later than [LastUpdated], which is not negative. *)
Definition datesBounded (r : ReviewerData.t) : Prop :=
  0 <= ReviewerData.LastUpdated r /\
  ReviewerData.InvitedDate r <= ReviewerData.LastUpdated r /\
  ReviewerData.AcceptedDate r <= ReviewerData.LastUpdated r /\
  ReviewerData.CompletedDate r <= ReviewerData.LastUpdated r.

(** * Lemmas *)

(** ** Lists *)

Section Before.
Context {A B : Type}.

Lemma before_In (a b : A) l : before a b l -> In a l /\ In b l.
Proof.
  induction l as [|x l IH]; simpl; [tauto|].
  intros [[-> Hb]|H]; [tauto|]. apply IH in H. tauto.
Qed.

Lemma before_app_inv (a b : A) l l' :
  before a b (l ++ l') -> before a b l \/ before a b l' \/ (In a l /\ In b l').
Proof.
  induction l as [|x l IH]; simpl; [tauto|].
  intros [[-> Hb]|H].
  - apply in_app_or in Hb. tauto.
  - apply IH in H. tauto.
Qed.

Lemma before_filter (p : A -> bool) (a b : A) l :
  before a b (filter p l) -> before a b l.
Proof.
  induction l as [|x l IH]; simpl; [tauto|].
  destruct (p x); simpl; [|tauto].
  intros [[-> Hb]|H]; [|tauto].
  left. split; [reflexivity|]. apply filter_In in Hb. tauto.
Qed.

Lemma before_map_inv (f : A -> B) (y1 y2 : B) l :
  before y1 y2 (map f l) ->
  exists x1 x2, before x1 x2 l /\ f x1 = y1 /\ f x2 = y2.
Proof.
  induction l as [|x l IH]; simpl; [tauto|].
  intros [[Hx Hb]|H].
  - apply in_map_iff in Hb. destruct Hb as [x2 [H2 Hin]].
    exists x, x2. auto.
  - destruct (IH H) as [x1 [x2 [Hb [H1 H2]]]]. exists x1, x2. auto.
Qed.

Lemma before_map (f : A -> B) (a b : A) l :
  before a b l -> before (f a) (f b) (map f l).
Proof.
  induction l as [|x l IH]; simpl; [tauto|].
  intros [[-> Hb]|H]; [left|right; auto].
  split; [reflexivity|]. now apply in_map.
Qed.

Lemma before_snoc (a b x : A) l :
  before a b (l ++ [x]) -> before a b l \/ (In a l /\ b = x).
Proof.
  intros H. apply before_app_inv in H. simpl in H.
  destruct H as [H|[H|[H1 H2]]]; [tauto| |].
  - destruct H as [[_ []]|[]].
  - destruct H2 as [->|[]]. tauto.
Qed.

Lemma StronglySorted_before (R : A -> A -> Prop) (a b : A) l :
  StronglySorted R l -> before a b l -> R a b.
Proof.
  induction 1 as [|x l Hs IH Hall]; simpl; [tauto|].
  intros [[-> Hb]|H]; [|auto].
  rewrite Forall_forall in Hall. auto.
Qed.

End Before.

(** ** [Array_sort] with a comparator [f a - f b] *)

Section SortFacts.
Context {A : Type}.
Variable f : A -> Z.

Let cmp : A -> A -> Z := fun a b => f a - f b.
Let le_f : A -> A -> Prop := fun a b => f a <= f b.
Let lt_f : A -> A -> Prop := fun a b => f a < f b.

Lemma sort_insert_perm x l : Permutation (sort_insert cmp x l) (x :: l).
Proof.
  induction l as [|y l IH]; simpl; [reflexivity|].
  destruct (cmp x y <=? 0); [reflexivity|].
  rewrite IH. apply perm_swap.
Qed.

Lemma Array_sort_perm l : Permutation (Array_sort cmp l) l.
Proof.
  induction l as [|x l IH]; simpl; [reflexivity|].
  rewrite sort_insert_perm. now constructor.
Qed.

Lemma Array_sort_In x l : In x (Array_sort cmp l) <-> In x l.
Proof.
  split; apply Permutation_in; [|symmetry]; apply Array_sort_perm.
Qed.

Lemma sort_insert_sorted x l :
  StronglySorted le_f l -> StronglySorted le_f (sort_insert cmp x l).
Proof.
  induction 1 as [|y l Hs IH Hall]; simpl.
  - repeat constructor.
  - unfold cmp at 1. destruct (Z.leb_spec (f x - f y) 0) as [Hle|Hgt].
    + constructor; [now constructor|].
      constructor; [unfold le_f; lia|].
      eapply Forall_impl; [|exact Hall]. unfold le_f. intros; lia.
    + constructor; [exact IH|].
      rewrite Forall_forall in *. intros z Hz.
      apply (Permutation_in _ (sort_insert_perm x l)) in Hz.
      destruct Hz as [<-|Hz]; [unfold le_f; lia|auto].
Qed.

Lemma Array_sort_sorted l : StronglySorted le_f (Array_sort cmp l).
Proof.
  induction l as [|x l IH]; simpl; [constructor|].
  now apply sort_insert_sorted.
Qed.

(** Stability: an element only passes elements that are strictly smaller. *)
Lemma before_sort_insert a b x l :
  before a b (sort_insert cmp x l) ->
  (a = x /\ In b l) \/ (b = x /\ In a l /\ f a < f x) \/ before a b l.
Proof.
  induction l as [|y l IH]; simpl.
  - intros [[_ []]|[]].
  - unfold cmp at 1. destruct (Z.leb_spec (f x - f y) 0) as [Hle|Hgt]; simpl.
    + intros [[<- Hb]|H]; [left; tauto|]. right; right; exact H.
    + intros [[<- Hb]|H].
      * apply (Permutation_in _ (sort_insert_perm x l)) in Hb.
        destruct Hb as [<-|Hb].
        -- right; left. split; [reflexivity|]. split; [now left|lia].
        -- right; right; left. tauto.
      * apply IH in H. destruct H as [[-> Hb]|[[-> [Ha Hlt]]|H]]; tauto.
Qed.

Lemma Array_sort_stable a b l :
  before a b (Array_sort cmp l) -> f a = f b -> before a b l.
Proof.
  induction l as [|x l IH]; simpl; [tauto|].
  intros H Heq. apply before_sort_insert in H.
  destruct H as [[-> Hb]|[[-> [_ Hlt]]|H]].
  - left. split; [reflexivity|]. now apply (proj1 (Array_sort_In _ _)) in Hb.
  - lia.
  - right. auto.
Qed.

Lemma sorted_NoDup_strict l :
  StronglySorted le_f l -> NoDup (map f l) -> StronglySorted lt_f l.
Proof.
  induction 1 as [|x l Hs IH Hall]; simpl; intros Hnd; [constructor|].
  inversion Hnd as [|? ? Hnin Hnd']; subst.
  constructor; [auto|].
  rewrite Forall_forall in *. intros y Hy.
  specialize (Hall y Hy). unfold le_f in Hall. unfold lt_f.
  assert (f x <> f y) by (intros E; apply Hnin; rewrite E; now apply in_map).
  lia.
Qed.

Lemma Array_sort_strict l :
  NoDup (map f l) -> StronglySorted lt_f (Array_sort cmp l).
Proof.
  intros Hnd. apply sorted_NoDup_strict; [apply Array_sort_sorted|].
  eapply Permutation_NoDup; [|exact Hnd].
  apply Permutation_map. symmetry. apply Array_sort_perm.
Qed.

(** A strictly ascending list is determined by its elements. *)
Lemma strict_sorted_perm_eq l l' :
  StronglySorted lt_f l -> StronglySorted lt_f l' -> Permutation l l' -> l = l'.
Proof.
  intros Hs. revert l'.
  induction Hs as [|x l Hs IH Hall]; intros l' Hs' Hp.
  - apply Permutation_nil in Hp. now subst.
  - destruct Hs' as [|x' l' Hs' Hall'].
    + symmetry in Hp. now apply Permutation_nil in Hp.
    + assert (Hxx : x = x').
      { rewrite Forall_forall in Hall, Hall'.
        assert (Hin : In x (x' :: l')) by (eapply Permutation_in; [exact Hp|now left]).
        assert (Hin' : In x' (x :: l))
          by (eapply Permutation_in; [symmetry; exact Hp|now left]).
        destruct Hin as [E|Hin]; [now subst|].
        destruct Hin' as [E|Hin']; [now subst|].
        specialize (Hall _ Hin'). specialize (Hall' _ Hin).
        unfold lt_f in *. lia. }
      subst x'. f_equal. apply IH; [exact Hs'|].
      eapply Permutation_cons_inv; exact Hp.
Qed.

Lemma Array_sort_perm_eq l l' :
  NoDup (map f l) -> Permutation l l' -> Array_sort cmp l = Array_sort cmp l'.
Proof.
  intros Hnd Hp. apply strict_sorted_perm_eq.
  - now apply Array_sort_strict.
  - apply Array_sort_strict. eapply Permutation_NoDup; [|exact Hnd].
    now apply Permutation_map.
  - rewrite !Array_sort_perm. exact Hp.
Qed.

End SortFacts.

(** ** Objects *)

Section ObjFacts.
Context {V : Type}.
Implicit Types (o : JSObject.t V) (k : Z) (v : V).

Lemma get_set_eq o k v : JSObject.get (JSObject.set o k v) k = Some v.
Proof.
  induction o as [|[k' v'] o IH]; simpl.
  - now rewrite Z.eqb_refl.
  - destruct (Z.eqb_spec k' k) as [->|Hne]; simpl.
    + now rewrite Z.eqb_refl.
    + destruct (Z.eqb_spec k' k); [contradiction|exact IH].
Qed.

Lemma get_set_neq o k k' v :
  k <> k' -> JSObject.get (JSObject.set o k v) k' = JSObject.get o k'.
Proof.
  intros Hne. induction o as [|[k0 v0] o IH]; simpl.
  - destruct (Z.eqb_spec k k'); [contradiction|reflexivity].
  - destruct (Z.eqb_spec k0 k) as [->|Hne0]; simpl.
    + destruct (Z.eqb_spec k k'); [contradiction|reflexivity].
    + now rewrite IH.
Qed.

Lemma keys_set o k v :
  JSObject.keys (JSObject.set o k v) =
  match JSObject.get o k with
  | Some _ => JSObject.keys o
  | None => JSObject.keys o ++ [k]
  end.
Proof.
  induction o as [|[k' v'] o IH]; simpl; [reflexivity|].
  destruct (Z.eqb_spec k' k) as [->|Hne]; simpl; [reflexivity|].
  fold (JSObject.keys (JSObject.set o k v)). rewrite IH.
  now destruct (JSObject.get o k).
Qed.

Lemma get_In o k v : JSObject.get o k = Some v -> In (k, v) o.
Proof.
  induction o as [|[k' v'] o IH]; simpl; [discriminate|].
  destruct (Z.eqb_spec k' k) as [->|Hne].
  - intros [= ->]. now left.
  - intros H. right. auto.
Qed.

Lemma get_None_keys o k :
  JSObject.get o k = None <-> ~ In k (JSObject.keys o).
Proof.
  induction o as [|[k' v'] o IH]; simpl; [tauto|].
  destruct (Z.eqb_spec k' k) as [->|Hne].
  - split; [discriminate|]. intros H. exfalso. apply H. now left.
  - rewrite IH. tauto.
Qed.

Lemma get_Some_keys o k :
  In k (JSObject.keys o) -> exists v, JSObject.get o k = Some v.
Proof.
  intros Hin. destruct (JSObject.get o k) as [v|] eqn:E; [now exists v|].
  apply get_None_keys in E. contradiction.
Qed.

Lemma In_get o k v :
  NoDup (JSObject.keys o) -> In (k, v) o -> JSObject.get o k = Some v.
Proof.
  induction o as [|[k' v'] o IH]; simpl; [tauto|].
  intros Hnd [[= -> ->]|Hin].
  - now rewrite Z.eqb_refl.
  - inversion Hnd as [|? ? Hnin Hnd']; subst.
    destruct (Z.eqb_spec k' k) as [->|Hne]; [|auto].
    exfalso. apply Hnin. change k with (fst (k, v)). now apply in_map.
Qed.

Lemma NoDup_keys_set o k v :
  NoDup (JSObject.keys o) -> NoDup (JSObject.keys (JSObject.set o k v)).
Proof.
  intros Hnd. rewrite keys_set.
  destruct (JSObject.get o k) eqn:E; [exact Hnd|].
  apply get_None_keys in E.
  apply NoDup_rev in Hnd. rewrite <- (rev_involutive (_ ++ _)).
  apply NoDup_rev. rewrite rev_app_distr. simpl. constructor; [|exact Hnd].
  now rewrite <- in_rev.
Qed.

Lemma In_set_inv o k v k' v' :
  In (k', v') (JSObject.set o k v) -> (k' = k /\ v' = v) \/ In (k', v') o.
Proof.
  induction o as [|[k0 v0] o IH]; simpl.
  - intros [[= <- <-]|[]]. now left.
  - destruct (Z.eqb_spec k0 k) as [->|Hne]; simpl.
    + intros [[= <- <-]|H]; tauto.
    + intros [H|H]; [tauto|]. apply IH in H. tauto.
Qed.

Lemma set_not_nil o k v : JSObject.set o k v <> [].
Proof.
  destruct o as [|[k' v'] o]; simpl; [discriminate|].
  destruct (k' =? k); discriminate.
Qed.

Lemma NoDup_keys_NoDup o : NoDup (JSObject.keys o) -> NoDup o.
Proof. apply NoDup_map_inv. Qed.

Lemma filter_split_perm {A} (p : A -> bool) (l : list A) :
  Permutation (filter p l ++ filter (fun x => negb (p x)) l) l.
Proof.
  induction l as [|x l IH]; simpl; [reflexivity|].
  destruct (p x); simpl.
  - now constructor.
  - rewrite <- Permutation_middle. now constructor.
Qed.

Lemma entries_perm o : Permutation (JSObject.entries o) o.
Proof.
  unfold JSObject.entries.
  rewrite (Array_sort_perm fst).
  apply (filter_split_perm (fun p => JSObject.isArrayIndex (fst p))).
Qed.

Lemma entries_In p o : In p (JSObject.entries o) <-> In p o.
Proof.
  split; apply Permutation_in; [|symmetry]; apply entries_perm.
Qed.

Lemma values_In v o : In v (JSObject.values o) <-> exists k, In (k, v) o.
Proof.
  unfold JSObject.values. rewrite in_map_iff. split.
  - intros [[k v'] [E Hin]]. simpl in E. subst v'.
    exists k. now apply entries_In.
  - intros [k Hin]. exists (k, v). split; [reflexivity|now apply entries_In].
Qed.

(** With array-index keys only, the own-property order is the numeric one. *)
Lemma entries_all_index o :
  (forall p, In p o -> JSObject.isArrayIndex (fst p) = true) ->
  JSObject.entries o = Array_sort (fun a b => fst a - fst b) o.
Proof.
  intros Hall. unfold JSObject.entries.
  assert (E1 : filter (fun p : Z * V => JSObject.isArrayIndex (fst p)) o = o).
  { induction o as [|p o IH]; simpl; [reflexivity|].
    rewrite (Hall p) by now left. f_equal. apply IH.
    intros q Hq. apply Hall. now right. }
  assert (E2 : filter (fun p : Z * V => negb (JSObject.isArrayIndex (fst p))) o = []).
  { clear E1. induction o as [|p o IH]; simpl; [reflexivity|].
    rewrite (Hall p) by now left. simpl. apply IH.
    intros q Hq. apply Hall. now right. }
  rewrite E1, E2. apply app_nil_r.
Qed.

(** Two objects with the same properties list them in the same order when
    all keys are array indices. *)
Lemma entries_ext o o' :
  NoDup (JSObject.keys o) -> NoDup (JSObject.keys o') ->
  (forall p, In p o -> JSObject.isArrayIndex (fst p) = true) ->
  (forall k, JSObject.get o k = JSObject.get o' k) ->
  JSObject.entries o = JSObject.entries o'.
Proof.
  intros Hnd Hnd' Hidx Hget.
  assert (Hiff : forall p, In p o <-> In p o').
  { intros [k v]. split; intros Hin.
    - apply get_In. rewrite <- Hget. now apply In_get.
    - apply get_In. rewrite Hget. now apply In_get. }
  rewrite !entries_all_index.
  - apply (Array_sort_perm_eq fst); [exact Hnd|].
    apply NoDup_Permutation; auto using NoDup_keys_NoDup.
  - intros p Hp. apply Hidx. now apply Hiff.
  - exact Hidx.
Qed.

End ObjFacts.

(** ** The fold pass, seen from one key *)

Lemma key_eqb_spec a b : reflect (a = b) (key_eqb a b).
Proof.
  destruct a as [a1 a2], b as [b1 b2]. unfold key_eqb; simpl.
  destruct (Z.eqb_spec a1 b1), (Z.eqb_spec a2 b2); simpl; constructor; congruence.
Qed.

Lemma lookup_forEach_body g e rev id :
  lookupReviewer (forEach_body g e) rev id
  = foldKey (rev, id) (lookupReviewer g rev id) e.
Proof.
  unfold lookupReviewer, forEach_body, foldKey, key.
  destruct (key_eqb_spec (ReviewEvent.Revision e, ReviewEvent.Id e) (rev, id))
    as [E|Hne].
  - injection E as <- <-. rewrite !get_set_eq.
    now destruct (JSObject.get g (ReviewEvent.Revision e)).
  - destruct (Z.eq_dec (ReviewEvent.Revision e) rev) as [<-|Hr].
    + rewrite get_set_eq, get_set_neq by congruence.
      now destruct (JSObject.get g (ReviewEvent.Revision e)).
    + now rewrite get_set_neq.
Qed.

Lemma lookup_fold es g rev id :
  lookupReviewer (fold_left forEach_body es g) rev id
  = fold_left (foldKey (rev, id)) es (lookupReviewer g rev id).
Proof.
  revert g. induction es as [|e es IH]; intros g; simpl; [reflexivity|].
  now rewrite IH, lookup_forEach_body.
Qed.

Lemma lookup_groupEvents es rev id :
  lookupReviewer (groupEvents es) rev id = fold_left (foldKey (rev, id)) es None.
Proof. unfold groupEvents. now rewrite lookup_fold. Qed.

Lemma foldKey_eventsOf k es st :
  fold_left (foldKey k) es st = fold_left (foldKey k) (eventsOf k es) st.
Proof.
  revert st. induction es as [|e es IH]; intros st; simpl; [reflexivity|].
  destruct (key_eqb (key e) k) eqn:E; simpl; rewrite IH; [reflexivity|].
  unfold foldKey at 2. now rewrite E.
Qed.

Lemma groupEvents_snoc es e :
  groupEvents (es ++ [e]) = forEach_body (groupEvents es) e.
Proof. unfold groupEvents. now rewrite fold_left_app. Qed.

(** A key has a state exactly when one of its events has been folded. *)
Lemma fold_Some_iff k es st :
  fold_left (foldKey k) es st <> None <-> st <> None \/ In k (map key es).
Proof.
  revert st. induction es as [|e es IH]; intros st; simpl; [tauto|].
  rewrite IH. unfold foldKey.
  destruct (key_eqb_spec (key e) k) as [E|Hne].
  - split; [tauto|]. intros _. left. discriminate.
  - tauto.
Qed.

Lemma lookup_present es rev id :
  lookupReviewer (groupEvents es) rev id <> None <-> In (rev, id) (map key es).
Proof. rewrite lookup_groupEvents, fold_Some_iff. tauto. Qed.

Lemma applyEvent_Id e r : ReviewerData.Id (applyEvent e r) = ReviewerData.Id r.
Proof.
  unfold applyEvent.
  destruct (ReviewEvent.Event e); simpl;
    match goal with |- context [if ?c then _ else _] => destruct c end;
    reflexivity.
Qed.

Lemma applyEvent_LastUpdated e r :
  ReviewerData.LastUpdated (applyEvent e r)
  = Z.max (ReviewerData.LastUpdated r) (ReviewEvent.Date e).
Proof.
  unfold applyEvent.
  destruct (ReviewEvent.Event e); simpl;
    match goal with |- context [?a >? ?b] => destruct (Z.gtb_spec a b) end;
    simpl; lia.
Qed.

Lemma fold_Id k es st r :
  (forall r0, st = Some r0 -> ReviewerData.Id r0 = snd k) ->
  fold_left (foldKey k) es st = Some r -> ReviewerData.Id r = snd k.
Proof.
  revert st. induction es as [|e es IH]; intros st Hst; simpl; [auto|].
  apply IH. unfold foldKey. destruct (key_eqb (key e) k); [|exact Hst].
  intros r0 [= <-]. rewrite applyEvent_Id.
  destruct st as [r1|]; [now apply Hst|reflexivity].
Qed.

Lemma lookup_Id es rev id r :
  lookupReviewer (groupEvents es) rev id = Some r -> ReviewerData.Id r = id.
Proof.
  rewrite lookup_groupEvents. intros H.
  apply (fold_Id (rev, id)) in H; [exact H|discriminate].
Qed.

(** ** Shape of the nested map *)

Lemma wfMap_nil : wfMap [].
Proof. split; [constructor|]. intros ? ? []. Qed.

Lemma wfMap_forEach_body g e : wfMap g -> wfMap (forEach_body g e).
Proof.
  intros [Hnd Hin]. unfold forEach_body. split.
  - now apply NoDup_keys_set.
  - intros rev rm H. apply In_set_inv in H. destruct H as [[-> ->]|H]; [|eauto].
    split; [|apply set_not_nil].
    apply NoDup_keys_set.
    destruct (JSObject.get g (ReviewEvent.Revision e)) as [m|] eqn:E.
    + apply get_In in E. now apply Hin in E.
    + constructor.
Qed.

Lemma wfMap_fold es g : wfMap g -> wfMap (fold_left forEach_body es g).
Proof.
  revert g. induction es as [|e es IH]; intros g Hg; simpl; [exact Hg|].
  now apply IH, wfMap_forEach_body.
Qed.

Lemma wfMap_groupEvents es : wfMap (groupEvents es).
Proof. apply wfMap_fold, wfMap_nil. Qed.

Lemma wfMap_lookup g rev rm id r :
  wfMap g -> In (rev, rm) g -> In (id, r) rm -> lookupReviewer g rev id = Some r.
Proof.
  intros [Hnd Hin] Hrm Hr. unfold lookupReviewer.
  rewrite (In_get _ _ _ Hnd Hrm). apply In_get; [|exact Hr].
  now apply Hin in Hrm.
Qed.

(** ** From the output back to the nested map *)

Lemma revisionsOf_In g grp :
  In grp (revisionsOf g) <-> exists entry, In entry g /\ grp = toRevisionData entry.
Proof.
  unfold revisionsOf. rewrite in_map_iff. split.
  - intros [entry [E Hin]]. exists entry. split; [|now symmetry].
    now rewrite (Array_sort_In fst), entries_In in Hin.
  - intros [entry [Hin E]]. exists entry. split; [now symmetry|].
    now rewrite (Array_sort_In fst), entries_In.
Qed.

Lemma output_lookup g grp r :
  wfMap g -> In grp (revisionsOf g) -> In r (RevisionData.Reviewers grp) ->
  exists id, lookupReviewer g (RevisionData.Id grp) id = Some r.
Proof.
  intros Hwf Hgrp Hr. apply revisionsOf_In in Hgrp.
  destruct Hgrp as [[rev rm] [Hin ->]]. simpl in *.
  rewrite (Array_sort_In ReviewerData.LastUpdated), values_In in Hr.
  destruct Hr as [id Hr]. exists id. eapply wfMap_lookup; eauto.
Qed.

Lemma lookup_output g rev id r :
  lookupReviewer g rev id = Some r ->
  exists grp, In grp (revisionsOf g) /\ RevisionData.Id grp = rev /\
              In r (RevisionData.Reviewers grp).
Proof.
  unfold lookupReviewer. destruct (JSObject.get g rev) as [rm|] eqn:E; [|discriminate].
  intros Hr. exists (toRevisionData (rev, rm)). split; [|split; [reflexivity|]].
  - apply revisionsOf_In. exists (rev, rm). split; [now apply get_In|reflexivity].
  - simpl. rewrite (Array_sort_In ReviewerData.LastUpdated), values_In.
    exists id. now apply get_In.
Qed.

(** ** What [applyEvent] writes *)

Lemma applyEvent_dateField e r :
  dateField (ReviewEvent.Event e) (applyEvent e r) = ReviewEvent.Date e.
Proof.
  unfold applyEvent.
  destruct (ReviewEvent.Event e); simpl;
    match goal with |- context [if ?c then _ else _] => destruct c end;
    reflexivity.
Qed.

Lemma applyEvent_hasDate e r :
  ReviewEvent.Date e <> 0 -> hasDate (applyEvent e r).
Proof.
  intros Hd. pose proof (applyEvent_dateField e r) as H.
  unfold hasDate. destruct (ReviewEvent.Event e); simpl in H; rewrite H; tauto.
Qed.

Lemma lookup_snoc es e rev id :
  lookupReviewer (groupEvents (es ++ [e])) rev id
  = foldKey (rev, id) (lookupReviewer (groupEvents es) rev id) e.
Proof. now rewrite groupEvents_snoc, lookup_forEach_body. Qed.

(** ** [LastUpdated] is a running maximum that starts at 0 *)

Lemma fold_LastUpdated k es st r :
  fold_left (foldKey k) es st = Some r ->
  ReviewerData.LastUpdated r
  = fold_left Z.max (map ReviewEvent.Date (eventsOf k es))
      (match st with Some r0 => ReviewerData.LastUpdated r0 | None => 0 end).
Proof.
  revert st. induction es as [|e es IH]; intros st; simpl.
  - now intros ->.
  - intros H. apply IH in H. rewrite H. unfold foldKey.
    destruct (key_eqb (key e) k); simpl; [|reflexivity].
    rewrite applyEvent_LastUpdated. now destruct st.
Qed.

Lemma fold_max_is_max l m : is_max (fold_left Z.max l m) (m :: l).
Proof.
  revert m. induction l as [|x l IH]; intros m; simpl.
  - split; [now left|]. repeat constructor. lia.
  - destruct (IH (Z.max m x)) as [Hin Hall].
    inversion Hall as [|? ? Hle Hall']; subst. split.
    + destruct Hin as [E|Hin]; [|now right; right].
      rewrite <- E. destruct (Z.max_spec m x) as [[_ ->]|[_ ->]]; simpl; tauto.
    + constructor; [lia|]. constructor; [lia|exact Hall'].
Qed.

Lemma is_max_drop_zero m l :
  (exists x, In x l /\ 0 <= x) -> is_max m (0 :: l) -> is_max m l.
Proof.
  intros [x [Hx H0]] [Hin Hall].
  inversion Hall as [|? ? Hle Hall']; subst. split; [|exact Hall'].
  destruct Hin as [<-|Hin]; [|exact Hin].
  rewrite Forall_forall in Hall'. specialize (Hall' x Hx).
  assert (x = 0) by lia. now subst.
Qed.

(** ** Ascending lists *)

Lemma StronglySorted_map {A B} (f : A -> B) (R : B -> B -> Prop) l :
  StronglySorted (fun a b => R (f a) (f b)) l -> StronglySorted R (map f l).
Proof.
  induction 1 as [|x l Hs IH Hall]; simpl; constructor; [exact IH|].
  rewrite Forall_forall in *. intros y Hy.
  apply in_map_iff in Hy. destruct Hy as [z [<- Hz]]. auto.
Qed.

Lemma StronglySorted_lt_NoDup l : StronglySorted Z.lt l -> NoDup l.
Proof.
  induction 1 as [|x l Hs IH Hall]; constructor; [|exact IH].
  rewrite Forall_forall in Hall. intros Hin. specialize (Hall x Hin). lia.
Qed.

Lemma revisionsOf_Ids g :
  map RevisionData.Id (revisionsOf g)
  = map fst (Array_sort (fun a b => fst a - fst b) (JSObject.entries g)).
Proof. unfold revisionsOf. rewrite map_map. reflexivity. Qed.

Lemma revisionsOf_sorted g :
  wfMap g -> StronglySorted Z.lt (map RevisionData.Id (revisionsOf g)).
Proof.
  intros [Hnd _]. rewrite revisionsOf_Ids.
  apply StronglySorted_map with (R := Z.lt).
  apply (Array_sort_strict fst).
  eapply Permutation_NoDup; [|exact Hnd].
  apply Permutation_map. symmetry. apply entries_perm.
Qed.

Lemma getStatus_cases r :
  getStatus r <> StatusUnknown \/
  (ReviewerData.InvitedDate r = 0 /\ ReviewerData.AcceptedDate r = 0 /\
   ReviewerData.CompletedDate r = 0).
Proof.
  unfold getStatus, truthy.
  destruct (Z.eqb_spec (ReviewerData.CompletedDate r) 0);
    destruct (Z.eqb_spec (ReviewerData.AcceptedDate r) 0);
    destruct (Z.eqb_spec (ReviewerData.InvitedDate r) 0);
    simpl; try (left; discriminate). right. tauto.
Qed.

(** * The claims *)

(** C5. [getStatus] is a strict precedence chain on which dates are set (not
    zero): Completed when [CompletedDate] is set, whatever the other two
    fields hold; else Accepted when [AcceptedDate] is set; else Invited when
    [InvitedDate] is set; else Unknown.  No date is compared with another. *)
Theorem getStatus_precedence (r : ReviewerData.t) :
  (ReviewerData.CompletedDate r <> 0 -> getStatus r = StatusCompleted) /\
  (ReviewerData.CompletedDate r = 0 -> ReviewerData.AcceptedDate r <> 0 ->
   getStatus r = StatusAccepted) /\
  (ReviewerData.CompletedDate r = 0 -> ReviewerData.AcceptedDate r = 0 ->
   ReviewerData.InvitedDate r <> 0 -> getStatus r = StatusInvited) /\
  (ReviewerData.CompletedDate r = 0 -> ReviewerData.AcceptedDate r = 0 ->
   ReviewerData.InvitedDate r = 0 -> getStatus r = StatusUnknown).
Proof.
  unfold getStatus, truthy.
  destruct (Z.eqb_spec (ReviewerData.CompletedDate r) 0);
    destruct (Z.eqb_spec (ReviewerData.AcceptedDate r) 0);
    destruct (Z.eqb_spec (ReviewerData.InvitedDate r) 0);
    simpl; repeat split; intros; congruence.
Qed.

Lemma getStatus_precedence_witness :
  getStatus (ReviewerData.mk 1 300 0 100 300 true) = StatusCompleted /\
  getStatus (ReviewerData.mk 1 100 200 0 200 true) = StatusAccepted.
Proof.
  split.
  - apply (proj1 (getStatus_precedence (ReviewerData.mk 1 300 0 100 300 true))).
    simpl. discriminate.
  - apply (proj1 (proj2 (getStatus_precedence (ReviewerData.mk 1 100 200 0 200 true)))).
    + reflexivity.
    + simpl. discriminate.
Defined.

(** C9. Every manuscript metadata field of the output (corresponding author,
    journal acronym, journal name, last-updated date, manuscript title,
    submission date) is the input field unchanged; with an empty event list
    the output has no revision group. *)
Theorem metadata_passes_through (rd : ReviewData.t) :
  exists out,
    formatReviewData (Some rd) = Some out /\
    FormattedReviewData.CorrespondingAuthor out = ReviewData.CorrespondingAuthor rd /\
    FormattedReviewData.JournalAcronym out = ReviewData.JournalAcronym rd /\
    FormattedReviewData.JournalName out = ReviewData.JournalName rd /\
    FormattedReviewData.LastUpdated out = ReviewData.LastUpdated rd /\
    FormattedReviewData.ManuscriptTitle out = ReviewData.ManuscriptTitle rd /\
    FormattedReviewData.SubmissionDate out = ReviewData.SubmissionDate rd /\
    (ReviewData.ReviewEvents rd = [] -> FormattedReviewData.Revisions out = []).
Proof.
  eexists. split; [reflexivity|]. simpl. repeat split.
  intros ->. reflexivity.
Qed.

Lemma metadata_passes_through_witness :
  exists out,
    formatReviewData (Some (mkData [])) = Some out /\
    FormattedReviewData.ManuscriptTitle out = "Title"%string /\
    FormattedReviewData.Revisions out = [].
Proof.
  destruct (metadata_passes_through (mkData [])) as [out H].
  exists out. repeat split; try apply H. reflexivity.
Defined.

(** C1. Two events of the same kind and key, folded one after the other: the
    timestamp of the later one is what the field of that kind holds, whether
    it is smaller or not; when it is not larger than the earlier timestamp,
    [LastUpdated] stays what the earlier event left, which is at least the
    earlier timestamp, and exactly the earlier timestamp when the key is new
    and that timestamp is not negative.  On the scenario of the specification
    ([{t:10, Invited, rev 1, id 1}] then [{t:5, Invited, rev 1, id 1}]) the
    output has [InvitedDate = 5] and [LastUpdated = 10]. *)
Theorem later_event_overwrites_field :
  (forall es e1 e2,
     key e1 = key e2 ->
     ReviewEvent.Event e1 = ReviewEvent.Event e2 ->
     exists r1 r2,
       lookupReviewer (groupEvents (es ++ [e1]))
         (ReviewEvent.Revision e1) (ReviewEvent.Id e1) = Some r1 /\
       lookupReviewer (groupEvents (es ++ [e1; e2]))
         (ReviewEvent.Revision e1) (ReviewEvent.Id e1) = Some r2 /\
       dateField (ReviewEvent.Event e1) r2 = ReviewEvent.Date e2 /\
       (ReviewEvent.Date e2 <= ReviewEvent.Date e1 ->
        ReviewerData.LastUpdated r2 = ReviewerData.LastUpdated r1 /\
        ReviewEvent.Date e1 <= ReviewerData.LastUpdated r2 /\
        (~ In (key e1) (map key es) -> 0 <= ReviewEvent.Date e1 ->
         ReviewerData.LastUpdated r2 = ReviewEvent.Date e1)))
  /\
  formatReviewData (Some (mkData [ev 10 Invited 1 1; ev 5 Invited 1 1]))
  = Some (FormattedReviewData.mk "author" "ACR" "Journal" 1700000000 "Title"
            1600000000
            [RevisionData.mk 1 true [ReviewerData.mk 1 5 0 0 10 true]]).
Proof.
  split; [|reflexivity].
  intros es e1 e2 Hk Hev.
  change (es ++ [e1; e2]) with (es ++ [e1] ++ [e2]). rewrite app_assoc.
  rewrite (lookup_snoc (es ++ [e1]) e2), (lookup_snoc es e1).
  set (st := lookupReviewer (groupEvents es) _ _).
  unfold foldKey. rewrite <- Hk.
  change (ReviewEvent.Revision e1, ReviewEvent.Id e1) with (key e1).
  destruct (key_eqb_spec (key e1) (key e1)) as [_|Hne]; [|contradiction].
  eexists. eexists. split; [reflexivity|]. split; [reflexivity|].
  split; [rewrite Hev; apply applyEvent_dateField|].
  intros Hle. rewrite !applyEvent_LastUpdated.
  split; [lia|]. split; [lia|].
  intros Hnew H0.
  assert (E : st = None).
  { destruct st eqn:Est; [|reflexivity]. exfalso. apply Hnew.
    apply lookup_present. subst st. unfold key. congruence. }
  rewrite E. simpl. lia.
Qed.

Lemma later_event_overwrites_field_witness :
  exists r1 r2,
    lookupReviewer (groupEvents ([] ++ [ev 10 Invited 1 1])) 1 1 = Some r1 /\
    lookupReviewer (groupEvents ([] ++ [ev 10 Invited 1 1; ev 5 Invited 1 1])) 1 1
    = Some r2 /\
    ReviewerData.InvitedDate r2 = 5 /\
    ReviewerData.LastUpdated r2 = 10.
Proof.
  destruct (proj1 later_event_overwrites_field []
              (ev 10 Invited 1 1) (ev 5 Invited 1 1) eq_refl eq_refl)
    as [r1 [r2 [H1 [H2 [H3 H4]]]]].
  exists r1, r2. split; [exact H1|]. split; [exact H2|]. split; [exact H3|].
  apply H4; simpl; [lia|tauto|lia].
Defined.

(** C3, as the code has it.  [formatReviewData] validates nothing and has no
    error to signal: every call on a record returns a complete result, in
    which every event of the input, whatever its revision number, has its
    reviewer state in the group of its revision; an empty event list gives
    no revision group, and a reviewer with a partial lifecycle is a result
    like any other. *)
Theorem formatReviewData_never_fails (rd : ReviewData.t) :
  exists out,
    callFormatReviewData (Some rd) = inr (Some out) /\
    (forall e, In e (ReviewData.ReviewEvents rd) ->
       exists grp r,
         In grp (FormattedReviewData.Revisions out) /\
         RevisionData.Id grp = ReviewEvent.Revision e /\
         In r (RevisionData.Reviewers grp) /\
         ReviewerData.Id r = ReviewEvent.Id e) /\
    (ReviewData.ReviewEvents rd = [] -> FormattedReviewData.Revisions out = []).
Proof.
  eexists. split; [reflexivity|]. simpl. split.
  - intros e He.
    assert (Hin : In (key e) (map key (ReviewData.ReviewEvents rd)))
      by now apply in_map.
    apply lookup_present in Hin.
    destruct (lookupReviewer _ _ _) as [r|] eqn:E; [|contradiction].
    pose proof (lookup_Id _ _ _ _ E) as Hid.
    apply lookup_output in E. destruct E as [grp [Hg [Hrev Hr]]].
    exists grp, r. auto.
  - intros ->. reflexivity.
Qed.

Lemma formatReviewData_never_fails_witness :
  exists out,
    callFormatReviewData (Some (mkData [])) = inr (Some out) /\
    FormattedReviewData.Revisions out = [].
Proof.
  destruct (formatReviewData_never_fails (mkData [])) as [out [H1 [_ H2]]].
  exists out. split; [exact H1|]. apply H2. reflexivity.
Defined.

(** C3, as stated, fails: an event with revision number -1 is not
    well-formed, yet the call signals no [InvalidInput] and returns a result
    holding the reviewer of that event in a revision group numbered -1. *)
Lemma negative_revision_is_aggregated :
  wellFormedEvents [ev 100 Invited (-1) 1] = false /\
  callFormatReviewData (Some (mkData [ev 100 Invited (-1) 1])) <> inl InvalidInput /\
  callFormatReviewData (Some (mkData [ev 100 Invited (-1) 1]))
  = inr (Some (FormattedReviewData.mk "author" "ACR" "Journal" 1700000000
                 "Title" 1600000000
                 [RevisionData.mk (-1) true [ReviewerData.mk 1 100 0 0 100 true]])).
Proof.
  split; [reflexivity|]. split; [discriminate|reflexivity].
Qed.

(** C4, as the code has it.  The [LastUpdated] of a key's state never
    decreases when a further event is folded in, and after the fold pass it
    is the greatest of 0 (the value the state is created with) and the
    timestamps of the key's events: it is the maximum timestamp as soon as one
    of those timestamps is not negative. *)
Theorem lastUpdated_running_max es rev id r :
  lookupReviewer (groupEvents es) rev id = Some r ->
  is_max (ReviewerData.LastUpdated r)
         (0 :: map ReviewEvent.Date (eventsOf (rev, id) es)) /\
  ((exists e, In e (eventsOf (rev, id) es) /\ 0 <= ReviewEvent.Date e) ->
   is_max (ReviewerData.LastUpdated r)
          (map ReviewEvent.Date (eventsOf (rev, id) es))) /\
  (forall e r',
     lookupReviewer (groupEvents (es ++ [e])) rev id = Some r' ->
     ReviewerData.LastUpdated r <= ReviewerData.LastUpdated r').
Proof.
  intros H.
  assert (Hmax : is_max (ReviewerData.LastUpdated r)
                   (0 :: map ReviewEvent.Date (eventsOf (rev, id) es))).
  { rewrite lookup_groupEvents in H. apply fold_LastUpdated in H.
    rewrite H. apply fold_max_is_max. }
  split; [exact Hmax|]. split.
  - intros [e [He H0]]. apply is_max_drop_zero; [|exact Hmax].
    exists (ReviewEvent.Date e). split; [now apply in_map|exact H0].
  - intros e r'. rewrite lookup_snoc, H. unfold foldKey.
    destruct (key_eqb (key e) (rev, id)); intros [= <-]; [|lia].
    rewrite applyEvent_LastUpdated. lia.
Qed.

Lemma lastUpdated_running_max_witness :
  is_max 200 [100; 200] /\ 100 <= 200.
Proof.
  pose (es := [ev 100 Invited 1 1]).
  pose (r := ReviewerData.mk 1 100 0 0 100 true).
  pose (r' := ReviewerData.mk 1 100 200 0 200 true).
  assert (H : lookupReviewer (groupEvents es) 1 1 = Some r) by reflexivity.
  assert (H' : lookupReviewer (groupEvents (es ++ [ev 200 Accepted 1 1])) 1 1
               = Some r') by reflexivity.
  split.
  - apply (proj1 (proj2 (lastUpdated_running_max _ 1 1 r' H'))).
    exists (ev 200 Accepted 1 1). simpl. split; [tauto|lia].
  - exact (proj2 (proj2 (lastUpdated_running_max es 1 1 r H)) _ r' H').
Defined.

(** C4, as stated, fails: after folding the one event
    [{t:-5, Invited, rev 1, id 1}] the state of key (1, 1) has
    [LastUpdated = 0], which is not the maximum timestamp (-5) of the events
    folded into it. *)
Lemma negative_timestamp_not_max :
  exists r,
    lookupReviewer (groupEvents [ev (-5) Invited 1 1]) 1 1 = Some r /\
    ReviewerData.LastUpdated r = 0 /\
    ~ is_max (ReviewerData.LastUpdated r)
        (map ReviewEvent.Date (eventsOf (1, 1) [ev (-5) Invited 1 1])).
Proof.
  eexists. split; [reflexivity|]. split; [reflexivity|].
  simpl. intros [[H|[]] _]. discriminate.
Qed.

(** C6. The revision groups of the output are strictly ascending by revision
    number; in particular no revision number occurs twice. *)
Theorem revisions_strictly_ascending rd out :
  formatReviewData (Some rd) = Some out ->
  StronglySorted Z.lt (map RevisionData.Id (FormattedReviewData.Revisions out)) /\
  NoDup (map RevisionData.Id (FormattedReviewData.Revisions out)).
Proof.
  intros [= <-]. simpl.
  assert (H : StronglySorted Z.lt
                (map RevisionData.Id
                   (revisionsOf (groupEvents (ReviewData.ReviewEvents rd)))))
    by apply revisionsOf_sorted, wfMap_groupEvents.
  split; [exact H|now apply StronglySorted_lt_NoDup].
Qed.

Lemma revisions_strictly_ascending_witness :
  exists out,
    formatReviewData
      (Some (mkData [ev 30 Invited 2 1; ev 10 Invited 0 4; ev 20 Invited 1 1;
                     ev 40 Accepted 0 4])) = Some out /\
    map RevisionData.Id (FormattedReviewData.Revisions out) = [0; 1; 2] /\
    StronglySorted Z.lt (map RevisionData.Id (FormattedReviewData.Revisions out)).
Proof.
  eexists. split; [reflexivity|]. split; [reflexivity|].
  refine (proj1 (revisions_strictly_ascending
                   (mkData [ev 30 Invited 2 1; ev 10 Invited 0 4;
                            ev 20 Invited 1 1; ev 40 Accepted 0 4]) _ _)).
  reflexivity.
Defined.

(** C10. When every event timestamp is strictly positive, every reviewer
    state of the output has at least one of [InvitedDate], [AcceptedDate],
    [CompletedDate] set (not zero), and its status is never Unknown. *)
Theorem positive_timestamps_status_known rd out grp r :
  formatReviewData (Some rd) = Some out ->
  (forall e, In e (ReviewData.ReviewEvents rd) -> 0 < ReviewEvent.Date e) ->
  In grp (FormattedReviewData.Revisions out) ->
  In r (RevisionData.Reviewers grp) ->
  hasDate r /\ getStatus r <> StatusUnknown.
Proof.
  intros [= <-] Hpos Hgrp Hr. simpl in Hgrp.
  destruct (output_lookup _ _ _ (wfMap_groupEvents _) Hgrp Hr) as [id Hl].
  rewrite lookup_groupEvents in Hl.
  assert (Hd : hasDate r).
  { revert Hl Hpos. generalize (ReviewData.ReviewEvents rd) as es.
    assert (G : forall es st,
               (forall r0, st = Some r0 -> hasDate r0) ->
               (forall e, In e es -> 0 < ReviewEvent.Date e) ->
               fold_left (foldKey (RevisionData.Id grp, id)) es st = Some r ->
               hasDate r).
    { induction es as [|e es IH]; intros st Hst Hp; simpl.
      - intros E. now apply Hst.
      - apply IH; [|intros e' He'; apply Hp; now right].
        unfold foldKey. destruct (key_eqb (key e) _); [|exact Hst].
        intros r0 [= <-]. apply applyEvent_hasDate.
        specialize (Hp e (or_introl eq_refl)). lia. }
    intros es Hl Hp. apply (G es None); [discriminate|exact Hp|exact Hl]. }
  split; [exact Hd|].
  destruct (getStatus_cases r) as [H|H]; [exact H|].
  exfalso. unfold hasDate in Hd. tauto.
Qed.

Lemma positive_timestamps_status_known_witness :
  hasDate (ReviewerData.mk 1 100 200 0 200 true) /\
  getStatus (ReviewerData.mk 1 100 200 0 200 true) <> StatusUnknown.
Proof.
  apply (positive_timestamps_status_known
           (mkData [ev 100 Invited 1 1; ev 200 Accepted 1 1])
           (FormattedReviewData.mk "author" "ACR" "Journal" 1700000000 "Title"
              1600000000
              [RevisionData.mk 1 true [ReviewerData.mk 1 100 200 0 200 true]])
           (RevisionData.mk 1 true [ReviewerData.mk 1 100 200 0 200 true])).
  - reflexivity.
  - simpl. intros e [<-|[<-|[]]]; simpl; lia.
  - simpl. left. reflexivity.
  - simpl. left. reflexivity.
Defined.

(** ** Counting the reviewer states of the output *)

Lemma countReviewers_outputKeys revs :
  countReviewers revs = List.length (outputKeys revs).
Proof.
  unfold countReviewers, outputKeys. rewrite length_flat_map.
  f_equal. apply map_ext. intros g. now rewrite length_map.
Qed.

Lemma outputKeys_In revs rev id :
  In (rev, id) (outputKeys revs) <->
  exists grp r, In grp revs /\ In r (RevisionData.Reviewers grp) /\
                RevisionData.Id grp = rev /\ ReviewerData.Id r = id.
Proof.
  unfold outputKeys. rewrite in_flat_map. split.
  - intros [grp [Hg H]]. apply in_map_iff in H. destruct H as [r [[= <- <-] Hr]].
    exists grp, r. auto.
  - intros [grp [r [Hg [Hr [<- <-]]]]]. exists grp. split; [exact Hg|].
    apply in_map_iff. exists r. auto.
Qed.

Lemma outputKeys_NoDup revs :
  NoDup (map RevisionData.Id revs) ->
  (forall grp, In grp revs -> NoDup (map ReviewerData.Id (RevisionData.Reviewers grp))) ->
  NoDup (outputKeys revs).
Proof.
  induction revs as [|g revs IH]; simpl; intros Hnd Hin; [constructor|].
  inversion Hnd as [|? ? Hnin Hnd']; subst.
  apply NoDup_app.
  - specialize (Hin g (or_introl eq_refl)).
    rewrite <- (map_map ReviewerData.Id (fun i => (RevisionData.Id g, i))).
    apply Finite.Injective_map_NoDup; [|exact Hin].
    intros a b [= E]. exact E.
  - apply IH; [exact Hnd'|]. intros grp Hg. apply Hin. now right.
  - intros [rev id] H1 H2. apply in_map_iff in H1.
    destruct H1 as [r [[= <- <-] Hr]].
    apply outputKeys_In in H2. destruct H2 as [grp [r' [Hg [_ [E _]]]]].
    apply Hnin. rewrite <- E. now apply in_map.
Qed.

(** The reviewers of a group carry the keys of its reviewer map. *)
Lemma reviewers_Ids_perm es rev rm :
  In (rev, rm) (groupEvents es) ->
  Permutation
    (map ReviewerData.Id (RevisionData.Reviewers (toRevisionData (rev, rm))))
    (JSObject.keys rm).
Proof.
  intros Hin. simpl.
  rewrite (Array_sort_perm ReviewerData.LastUpdated).
  unfold JSObject.values. rewrite (entries_perm rm), map_map.
  unfold JSObject.keys. apply Permutation_refl'. apply map_ext_in.
  intros [id r] Hr. simpl.
  eapply lookup_Id, wfMap_lookup; eauto using wfMap_groupEvents.
Qed.

Lemma output_NoDup es : NoDup (outputKeys (revisionsOf (groupEvents es))).
Proof.
  pose proof (wfMap_groupEvents es) as Hwf.
  apply outputKeys_NoDup.
  - apply StronglySorted_lt_NoDup, revisionsOf_sorted, Hwf.
  - intros grp Hg. apply revisionsOf_In in Hg.
    destruct Hg as [[rev rm] [Hin ->]].
    eapply Permutation_NoDup; [symmetry; eapply reviewers_Ids_perm; eauto|].
    destruct Hwf as [_ Hwf]. now apply Hwf in Hin.
Qed.

Lemma output_In_iff es rev id :
  In (rev, id) (outputKeys (revisionsOf (groupEvents es))) <->
  In (rev, id) (map key es).
Proof.
  rewrite <- lookup_present, outputKeys_In. split.
  - intros [grp [r [Hg [Hr [<- <-]]]]].
    destruct (output_lookup _ _ _ (wfMap_groupEvents es) Hg Hr) as [id' H].
    pose proof (lookup_Id _ _ _ _ H) as E. rewrite E, H. discriminate.
  - intros H. destruct (lookupReviewer _ _ _) as [r|] eqn:E; [|contradiction].
    pose proof (lookup_Id _ _ _ _ E) as Eid.
    apply lookup_output in E. destruct E as [grp [Hg [Hrev Hr]]].
    exists grp, r. auto.
Qed.

(** C7. The number of reviewer states over all revision groups of the output
    is the number of distinct (revision number, reviewer id) pairs of the
    input, and no pair has two states in the output. *)
Theorem one_state_per_key (rd : ReviewData.t) :
  exists out,
    formatReviewData (Some rd) = Some out /\
    countReviewers (FormattedReviewData.Revisions out)
    = distinctKeys (ReviewData.ReviewEvents rd) /\
    NoDup (outputKeys (FormattedReviewData.Revisions out)).
Proof.
  eexists. split; [reflexivity|]. simpl. split; [|apply output_NoDup].
  rewrite countReviewers_outputKeys. unfold distinctKeys.
  apply Permutation_length, NoDup_Permutation.
  - apply output_NoDup.
  - apply NoDup_nodup.
  - intros [rev id]. now rewrite output_In_iff, nodup_In.
Qed.

(** ** Order of creation of the reviewer properties *)

Lemma firstIndex_app_In k l l' :
  In k l -> firstIndex k (l ++ l') = firstIndex k l.
Proof.
  induction l as [|x l IH]; simpl; [tauto|].
  destruct (key_eqb_spec x k) as [_|Hne]; [reflexivity|].
  intros [E|Hin]; [contradiction|]. now rewrite IH.
Qed.

Lemma firstIndex_lt_length k l :
  In k l -> (firstIndex k l < List.length l)%nat.
Proof.
  induction l as [|x l IH]; simpl; [tauto|].
  destruct (key_eqb_spec x k) as [_|Hne]; [lia|].
  intros [E|Hin]; [contradiction|]. apply IH in Hin. lia.
Qed.

Lemma firstIndex_new k l :
  ~ In k l -> firstIndex k (l ++ [k]) = List.length l.
Proof.
  induction l as [|x l IH]; simpl.
  - destruct (key_eqb_spec k k); [reflexivity|contradiction].
  - intros Hnin. destruct (key_eqb_spec x k) as [E|Hne]; [tauto|].
    rewrite IH; tauto.
Qed.

Lemma key_present es rev rm a :
  In (rev, rm) (groupEvents es) -> In a (JSObject.keys rm) ->
  In (rev, a) (map key es).
Proof.
  intros Hin Ha. apply get_Some_keys in Ha. destruct Ha as [v Hv].
  apply get_In in Hv. apply lookup_present.
  rewrite (wfMap_lookup _ _ _ _ _ (wfMap_groupEvents es) Hin Hv). discriminate.
Qed.

(** The properties of a reviewer map were created in the order in which
    their keys first occur among the events. *)
Lemma creation_order es : forall rev rm a b,
  In (rev, rm) (groupEvents es) -> before a b (JSObject.keys rm) ->
  (firstIndex (rev, a) (map key es) < firstIndex (rev, b) (map key es))%nat.
Proof.
  induction es as [|e es IH] using rev_ind; intros rev rm a b Hin Hb.
  - destruct Hin.
  - assert (Hold : forall rm0, In (rev, rm0) (groupEvents es) ->
                   before a b (JSObject.keys rm0) ->
                   (firstIndex (rev, a) (map key (es ++ [e]))
                    < firstIndex (rev, b) (map key (es ++ [e])))%nat).
    { intros rm0 Hin0 Hb0. rewrite map_app.
      destruct (before_In _ _ _ Hb0) as [Ha' Hb'].
      rewrite !firstIndex_app_In by (eapply key_present; eauto).
      eapply IH; eauto. }
    rewrite groupEvents_snoc in Hin. unfold forEach_body in Hin.
    apply In_set_inv in Hin. destruct Hin as [[-> ->]|Hin]; [|eauto].
    rewrite keys_set in Hb.
    destruct (JSObject.get (groupEvents es) (ReviewEvent.Revision e))
      as [rm0|] eqn:Eg.
    + apply get_In in Eg.
      destruct (JSObject.get rm0 (ReviewEvent.Id e)) as [r0|] eqn:Er; [eauto|].
      apply before_snoc in Hb. destruct Hb as [Hb|[Ha ->]]; [eauto|].
      rewrite map_app. simpl.
      pose proof (key_present _ _ _ _ Eg Ha) as Hpa.
      rewrite firstIndex_app_In by exact Hpa.
      change (ReviewEvent.Revision e, ReviewEvent.Id e) with (key e).
      rewrite firstIndex_new; [now apply firstIndex_lt_length|].
      intros Hp. apply lookup_present in Hp. apply Hp.
      unfold lookupReviewer.
      rewrite (In_get _ _ _ (proj1 (wfMap_groupEvents es)) Eg). exact Er.
    + simpl in Hb. destruct Hb as [[_ []]|[]].
Qed.

Lemma NoDup_map_filter {A B} (f : A -> B) (p : A -> bool) l :
  NoDup (map f l) -> NoDup (map f (filter p l)).
Proof.
  induction l as [|x l IH]; simpl; intros Hnd; [constructor|].
  inversion Hnd as [|? ? Hnin Hnd']; subst.
  destruct (p x); simpl; [|auto]. constructor; [|auto].
  intros Hin. apply Hnin. apply in_map_iff in Hin.
  destruct Hin as [y [E Hy]]. apply filter_In in Hy.
  apply in_map_iff. exists y. tauto.
Qed.

(** Own-property order of [Object.entries]. *)
Lemma entries_order {V} (o : JSObject.t V) p q :
  NoDup (JSObject.keys o) -> before p q (JSObject.entries o) ->
  if JSObject.isArrayIndex (fst p)
  then (if JSObject.isArrayIndex (fst q) then fst p < fst q else True)
  else (if JSObject.isArrayIndex (fst q) then False else before p q o).
Proof.
  intros Hnd Hb. unfold JSObject.entries in Hb.
  apply before_app_inv in Hb. destruct Hb as [Hb|[Hb|[Hp Hq]]].
  - pose proof (Array_sort_strict fst _
                  (NoDup_map_filter fst (fun p => JSObject.isArrayIndex (fst p))
                     o Hnd)) as Hs.
    pose proof (StronglySorted_before _ _ _ _ Hs Hb) as Hlt.
    apply before_In in Hb. destruct Hb as [Hp Hq].
    rewrite (Array_sort_In fst), filter_In in Hp, Hq.
    destruct Hp as [_ ->], Hq as [_ ->]. exact Hlt.
  - pose proof (before_In _ _ _ Hb) as [Hp Hq].
    rewrite filter_In in Hp, Hq.
    destruct Hp as [_ Hp], Hq as [_ Hq].
    apply negb_true_iff in Hp, Hq. rewrite Hp, Hq.
    eapply before_filter; exact Hb.
  - rewrite (Array_sort_In fst), filter_In in Hp. rewrite filter_In in Hq.
    destruct Hp as [_ ->], Hq as [_ Hq].
    apply negb_true_iff in Hq. now rewrite Hq.
Qed.

(** C2, as the code has it.  Within each revision group the reviewers are
    ascending (non-decreasing) by [LastUpdated], and two reviewers with equal
    [LastUpdated] stand in the own-property order of their ids: ids that are
    array indices ([0 <= id < 2^32 - 1]) in ascending numeric order, before
    all other ids, which follow in the order in which their keys first
    occurred in the input. *)
Theorem reviewers_ascending_ties_by_key_order rd out grp :
  formatReviewData (Some rd) = Some out ->
  In grp (FormattedReviewData.Revisions out) ->
  StronglySorted
    (fun a b => ReviewerData.LastUpdated a <= ReviewerData.LastUpdated b)
    (RevisionData.Reviewers grp) /\
  (forall r1 r2,
     before r1 r2 (RevisionData.Reviewers grp) ->
     ReviewerData.LastUpdated r1 = ReviewerData.LastUpdated r2 ->
     ownKeyOrder (ReviewData.ReviewEvents rd) (RevisionData.Id grp)
       (ReviewerData.Id r1) (ReviewerData.Id r2)).
Proof.
  intros [= <-] Hg. simpl in Hg. apply revisionsOf_In in Hg.
  destruct Hg as [[rev rm] [Hin ->]]. simpl. split.
  - apply (Array_sort_sorted ReviewerData.LastUpdated).
  - intros r1 r2 Hb Heq.
    apply (Array_sort_stable ReviewerData.LastUpdated) in Hb; [|exact Heq].
    apply before_map_inv in Hb. destruct Hb as [[a r1'] [[b r2'] [Hb [E1 E2]]]].
    simpl in E1, E2. subst r1' r2'.
    pose proof (wfMap_groupEvents (ReviewData.ReviewEvents rd)) as Hwf.
    assert (Hnd : NoDup (JSObject.keys rm)) by (now apply (proj2 Hwf) in Hin).
    destruct (before_In _ _ _ Hb) as [H1 H2]. rewrite entries_In in H1, H2.
    rewrite (lookup_Id _ _ _ _ (wfMap_lookup _ _ _ _ _ Hwf Hin H1)).
    rewrite (lookup_Id _ _ _ _ (wfMap_lookup _ _ _ _ _ Hwf Hin H2)).
    pose proof (entries_order rm _ _ Hnd Hb) as Ho. simpl in Ho.
    unfold ownKeyOrder.
    destruct (JSObject.isArrayIndex a), (JSObject.isArrayIndex b); try exact Ho.
    eapply creation_order; [exact Hin|].
    apply (before_map fst) in Ho. exact Ho.
Qed.

Lemma reviewers_ascending_ties_by_key_order_witness :
  ownKeyOrder [ev 5 Invited 1 2; ev 5 Invited 1 1] 1 1 2.
Proof.
  refine (proj2 (reviewers_ascending_ties_by_key_order
                   (mkData [ev 5 Invited 1 2; ev 5 Invited 1 1])
                   _ (RevisionData.mk 1 true [ReviewerData.mk 1 5 0 0 5 true;
                                              ReviewerData.mk 2 5 0 0 5 true])
                   eq_refl _)
            (ReviewerData.mk 1 5 0 0 5 true) (ReviewerData.mk 2 5 0 0 5 true) _ _).
  - simpl. left. reflexivity.
  - simpl. left. split; [reflexivity|]. left. reflexivity.
  - reflexivity.
Defined.

(** C2, as stated, fails on the tie-break: with
    [{t:5, Invited, rev 1, id 2}] then [{t:5, Invited, rev 1, id 1}] the two
    reviewers have equal [LastUpdated], key (1, 2) occurs first in the input,
    and the output lists reviewer 1 before reviewer 2. *)
Lemma ties_not_in_input_order :
  exists out grp r1 r2,
    formatReviewData (Some (mkData [ev 5 Invited 1 2; ev 5 Invited 1 1])) = Some out /\
    FormattedReviewData.Revisions out = [grp] /\
    RevisionData.Reviewers grp = [r1; r2] /\
    before r1 r2 (RevisionData.Reviewers grp) /\
    ReviewerData.LastUpdated r1 = ReviewerData.LastUpdated r2 /\
    ReviewerData.Id r1 = 1 /\ ReviewerData.Id r2 = 2 /\
    ~ (firstIndex (RevisionData.Id grp, ReviewerData.Id r1)
         (map key [ev 5 Invited 1 2; ev 5 Invited 1 1])
       < firstIndex (RevisionData.Id grp, ReviewerData.Id r2)
           (map key [ev 5 Invited 1 2; ev 5 Invited 1 1]))%nat.
Proof.
  do 4 eexists. split; [reflexivity|]. simpl.
  split; [reflexivity|]. split; [reflexivity|].
  split; [left; split; [reflexivity|left; reflexivity]|].
  split; [reflexivity|]. split; [reflexivity|]. split; [reflexivity|].
  simpl. lia.
Qed.

(** ** The output as a function of the per-key states *)

Lemma map_ext_keys {V B} (F : Z * V -> B) (L L' : list (Z * V)) :
  map fst L = map fst L' ->
  (forall k v v', In (k, v) L -> In (k, v') L' -> F (k, v) = F (k, v')) ->
  map F L = map F L'.
Proof.
  revert L'. induction L as [|[k v] L IH]; intros [|[k' v'] L']; simpl;
    try discriminate; [reflexivity|].
  intros [= <- Hk] HF. f_equal.
  - apply HF; now left.
  - apply IH; [exact Hk|]. intros k0 v0 v0' H H'. apply HF; now right.
Qed.

Lemma revision_present g rev :
  wfMap g ->
  (In rev (JSObject.keys g) <-> exists id, lookupReviewer g rev id <> None).
Proof.
  intros [Hnd Hwf]. unfold lookupReviewer. split.
  - intros Hin. apply get_Some_keys in Hin. destruct Hin as [rm Hrm].
    rewrite Hrm. apply get_In, Hwf in Hrm. destruct Hrm as [_ Hne].
    destruct rm as [|[id r] rm]; [contradiction|].
    exists id. simpl. rewrite Z.eqb_refl. discriminate.
  - intros [id H]. destruct (JSObject.get g rev) as [rm|] eqn:E; [|contradiction].
    apply get_In in E. change rev with (fst (rev, rm)). now apply in_map.
Qed.

Lemma sorted_entries_keys g g' :
  wfMap g -> wfMap g' ->
  (forall rev id, lookupReviewer g rev id = lookupReviewer g' rev id) ->
  map fst (Array_sort (fun a b => fst a - fst b) (JSObject.entries g))
  = map fst (Array_sort (fun a b => fst a - fst b) (JSObject.entries g')).
Proof.
  intros Hwf Hwf' Hl. rewrite <- !revisionsOf_Ids.
  apply (strict_sorted_perm_eq (fun x => x)).
  - now apply revisionsOf_sorted.
  - now apply revisionsOf_sorted.
  - rewrite !revisionsOf_Ids.
    rewrite !(Array_sort_perm fst), !entries_perm.
    apply NoDup_Permutation; [apply Hwf|apply Hwf'|].
    intros rev. fold (JSObject.keys g) (JSObject.keys g').
    rewrite !revision_present by assumption.
    split; intros [id H]; exists id; congruence.
Qed.

Lemma revisionsOf_ext g g' :
  wfMap g -> wfMap g' ->
  (forall rev id, lookupReviewer g rev id = lookupReviewer g' rev id) ->
  (forall rev rm p, In (rev, rm) g -> In p rm ->
                    JSObject.isArrayIndex (fst p) = true) ->
  revisionsOf g = revisionsOf g'.
Proof.
  intros Hwf Hwf' Hl Hidx. unfold revisionsOf.
  apply map_ext_keys; [now apply sorted_entries_keys|].
  intros rev rm rm' Hin Hin'.
  rewrite (Array_sort_In fst), entries_In in Hin, Hin'.
  unfold toRevisionData. simpl. f_equal. f_equal.
  unfold JSObject.values. f_equal.
  apply entries_ext.
  - now apply (proj2 Hwf) in Hin.
  - now apply (proj2 Hwf') in Hin'.
  - intros p Hp. eapply Hidx; eauto.
  - intros id. specialize (Hl rev id). unfold lookupReviewer in Hl.
    now rewrite (In_get _ _ _ (proj1 Hwf) Hin),
                (In_get _ _ _ (proj1 Hwf') Hin') in Hl.
Qed.

(** C8, as the code has it.  When every reviewer id is an array index
    ([0 <= id < 2^32 - 1]), reordering the events without exchanging two
    events of one key leaves the result unchanged. *)
Theorem reorder_distinct_keys_same_result rd events' :
  reordersDistinctKeys (ReviewData.ReviewEvents rd) events' ->
  (forall e, In e (ReviewData.ReviewEvents rd) ->
             JSObject.isArrayIndex (ReviewEvent.Id e) = true) ->
  formatReviewData (Some (withEvents rd events')) = formatReviewData (Some rd).
Proof.
  intros [_ Hsame] Hidx. simpl. f_equal. f_equal. symmetry.
  apply revisionsOf_ext; try apply wfMap_groupEvents.
  - intros rev id. rewrite !lookup_groupEvents.
    rewrite (foldKey_eventsOf _ (ReviewData.ReviewEvents rd)).
    rewrite (foldKey_eventsOf _ events'). now rewrite Hsame.
  - intros rev rm [id r] Hin Hp. simpl.
    assert (Hk : In (rev, id) (map key (ReviewData.ReviewEvents rd))).
    { eapply key_present; [exact Hin|].
      change id with (fst (id, r)). now apply in_map. }
    apply in_map_iff in Hk. destruct Hk as [e [[= _ <-] He]]. now apply Hidx.
Qed.

Lemma reorder_distinct_keys_same_result_witness :
  formatReviewData
    (Some (withEvents (mkData [ev 5 Invited 1 2; ev 7 Invited 1 1; ev 9 Accepted 1 2])
             [ev 7 Invited 1 1; ev 5 Invited 1 2; ev 9 Accepted 1 2]))
  = formatReviewData
      (Some (mkData [ev 5 Invited 1 2; ev 7 Invited 1 1; ev 9 Accepted 1 2])).
Proof.
  apply reorder_distinct_keys_same_result.
  - split.
    + simpl. apply perm_swap.
    + intros [kr ki]. unfold eventsOf, key_eqb, mkData.
      cbn [filter key ev fst snd ReviewEvent.Revision ReviewEvent.Id
           ReviewData.ReviewEvents].
      destruct (Z.eqb_spec 1 kr), (Z.eqb_spec 2 ki), (Z.eqb_spec 1 ki);
        cbn [andb]; try reflexivity; lia.
  - simpl. intros e [<-|[<-|[<-|[]]]]; reflexivity.
Defined.

(** C8, as stated, fails: the reviewer ids 5000000000 and 5000000001 are not
    array indices, so the two reviewers, tied on [LastUpdated], come out in
    the order of creation of their properties, which follows the input
    order; exchanging the two events (of distinct keys) exchanges them in
    the result. *)
Lemma reorder_changes_result :
  reordersDistinctKeys
    [ev 5 Invited 1 5000000000; ev 5 Invited 1 5000000001]
    [ev 5 Invited 1 5000000001; ev 5 Invited 1 5000000000] /\
  option_map FormattedReviewData.Revisions
    (formatReviewData
       (Some (mkData [ev 5 Invited 1 5000000000; ev 5 Invited 1 5000000001])))
  = Some [RevisionData.mk 1 true
            [ReviewerData.mk 5000000000 5 0 0 5 true;
             ReviewerData.mk 5000000001 5 0 0 5 true]] /\
  option_map FormattedReviewData.Revisions
    (formatReviewData
       (Some (mkData [ev 5 Invited 1 5000000001; ev 5 Invited 1 5000000000])))
  = Some [RevisionData.mk 1 true
            [ReviewerData.mk 5000000001 5 0 0 5 true;
             ReviewerData.mk 5000000000 5 0 0 5 true]] /\
  formatReviewData
    (Some (mkData [ev 5 Invited 1 5000000000; ev 5 Invited 1 5000000001]))
  <> formatReviewData
       (Some (mkData [ev 5 Invited 1 5000000001; ev 5 Invited 1 5000000000])).
Proof.
  split; [|split; [reflexivity|split; [reflexivity|discriminate]]].
  split.
  - apply perm_swap.
  - intros [kr ki]. unfold eventsOf, key_eqb.
    cbn [filter key ev fst snd ReviewEvent.Revision ReviewEvent.Id].
    destruct (Z.eqb_spec 1 kr), (Z.eqb_spec 5000000000 ki),
      (Z.eqb_spec 5000000001 ki); cbn [andb]; try reflexivity; lia.
Qed.

(** ** The three-event scenario of the specification *)

Example scenario_three_events :
  option_map FormattedReviewData.Revisions
    (formatReviewData
       (Some (mkData [ev 100 Invited 1 1; ev 200 Accepted 1 1; ev 50 Invited 1 2])))
  = Some [RevisionData.mk 1 true
            [ReviewerData.mk 2 50 0 0 50 true;
             ReviewerData.mk 1 100 200 0 200 true]].
Proof. reflexivity. Qed.

Example scenario_three_events_status :
  getStatus (ReviewerData.mk 1 100 200 0 200 true) = StatusAccepted /\
  getStatus (ReviewerData.mk 2 50 0 0 50 true) = StatusInvited.
Proof. split; reflexivity. Qed.

(** * Further properties of the aggregation *)

(** ** Invariants of the per-key fold *)

Lemma fold_invariant (P : ReviewerData.t -> Prop) k :
  P (newReviewer (snd k)) ->
  (forall e r, P r -> P (applyEvent e r)) ->
  forall es st r,
    (forall r0, st = Some r0 -> P r0) ->
    fold_left (foldKey k) es st = Some r -> P r.
Proof.
  intros Hnew Hstep. induction es as [|e es IH]; intros st r Hst; simpl.
  - intros E. now apply Hst.
  - apply IH. unfold foldKey. destruct (key_eqb (key e) k); [|exact Hst].
    intros r0 [= <-]. apply Hstep. destruct st as [r1|]; [now apply Hst|exact Hnew].
Qed.

(** The state of a reviewer of the output is the fold of its key. *)
Lemma output_state es grp r :
  In grp (revisionsOf (groupEvents es)) ->
  In r (RevisionData.Reviewers grp) ->
  fold_left (foldKey (RevisionData.Id grp, ReviewerData.Id r)) es None = Some r.
Proof.
  intros Hg Hr.
  destruct (output_lookup _ _ _ (wfMap_groupEvents es) Hg Hr) as [id H].
  rewrite (lookup_Id _ _ _ _ H). now rewrite <- lookup_groupEvents.
Qed.

Lemma output_invariant (P : ReviewerData.t -> Prop) es grp r :
  (forall id, P (newReviewer id)) ->
  (forall e r0, P r0 -> P (applyEvent e r0)) ->
  In grp (revisionsOf (groupEvents es)) ->
  In r (RevisionData.Reviewers grp) -> P r.
Proof.
  intros Hnew Hstep Hg Hr.
  eapply (fold_invariant P); [apply Hnew|exact Hstep| |exact (output_state _ _ _ Hg Hr)].
  discriminate.
Qed.

Lemma applyEvent_Collapsed e r :
  ReviewerData.Collapsed (applyEvent e r) = ReviewerData.Collapsed r.
Proof.
  unfold applyEvent.
  destruct (ReviewEvent.Event e); simpl;
    match goal with |- context [if ?c then _ else _] => destruct c end;
    reflexivity.
Qed.

Lemma applyEvent_datesBounded e r : datesBounded r -> datesBounded (applyEvent e r).
Proof.
  unfold datesBounded, applyEvent. intros [H0 [H1 [H2 H3]]].
  destruct (ReviewEvent.Event e); simpl;
    match goal with |- context [?a >? ?b] => destruct (Z.gtb_spec a b) end;
    simpl; lia.
Qed.

Lemma applyEvent_dateField_cases e r k :
  dateField k (applyEvent e r)
  = if ReviewEventType_eqb (ReviewEvent.Event e) k
    then ReviewEvent.Date e else dateField k r.
Proof.
  unfold applyEvent.
  destruct (ReviewEvent.Event e), k; simpl;
    match goal with |- context [if ?c then _ else _] => destruct c end;
    reflexivity.
Qed.

Lemma last_cons {A} (x d : A) l : last (x :: l) d = last l x.
Proof.
  revert x d. induction l as [|y l IH]; intros x d; [reflexivity|].
  change (last (x :: y :: l) d) with (last (y :: l) d).
  now rewrite (IH y d), (IH y x).
Qed.

Lemma fold_dateField k ky es st r :
  fold_left (foldKey ky) es st = Some r ->
  dateField k r
  = last (map ReviewEvent.Date
            (filter (fun e => ReviewEventType_eqb (ReviewEvent.Event e) k)
                    (eventsOf ky es)))
         (dateField k (match st with Some r0 => r0 | None => newReviewer (snd ky) end)).
Proof.
  revert st. induction es as [|e es IH]; intros st.
  - simpl. now intros ->.
  - cbn [fold_left]. intros H. apply IH in H. rewrite H.
    unfold foldKey, eventsOf. cbn [filter]. fold (eventsOf ky es).
    destruct (key_eqb (key e) ky); [|reflexivity].
    rewrite applyEvent_dateField_cases. cbn [filter].
    destruct (ReviewEventType_eqb (ReviewEvent.Event e) k); [|reflexivity].
    cbn [map]. now rewrite last_cons.
Qed.

(** X1.  Each date field of a reviewer state of the output holds the
    timestamp of the last event, in input order, of the field's kind among
    the events of the reviewer's key, and 0 when the key has no event of that
    kind. *)
Theorem date_field_is_last_event_of_kind rd out grp r k :
  formatReviewData (Some rd) = Some out ->
  In grp (FormattedReviewData.Revisions out) ->
  In r (RevisionData.Reviewers grp) ->
  dateField k r
  = lastDateOf k (eventsOf (RevisionData.Id grp, ReviewerData.Id r)
                           (ReviewData.ReviewEvents rd)).
Proof.
  intros [= <-] Hg Hr. simpl in Hg.
  pose proof (output_state _ _ _ Hg Hr) as H.
  apply (fold_dateField k) in H. rewrite H. unfold lastDateOf.
  now destruct k.
Qed.

Lemma date_field_is_last_event_of_kind_witness :
  dateField Invited (ReviewerData.mk 1 5 0 0 10 true) = 5 /\
  dateField Accepted (ReviewerData.mk 1 5 0 0 10 true) = 0.
Proof.
  split.
  - apply (date_field_is_last_event_of_kind
             (mkData [ev 10 Invited 1 1; ev 5 Invited 1 1]) _
             (RevisionData.mk 1 true [ReviewerData.mk 1 5 0 0 10 true])
             (ReviewerData.mk 1 5 0 0 10 true) Invited eq_refl);
      simpl; left; reflexivity.
  - apply (date_field_is_last_event_of_kind
             (mkData [ev 10 Invited 1 1; ev 5 Invited 1 1]) _
             (RevisionData.mk 1 true [ReviewerData.mk 1 5 0 0 10 true])
             (ReviewerData.mk 1 5 0 0 10 true) Accepted eq_refl);
      simpl; left; reflexivity.
Defined.

(** X2.  In every reviewer state of the output [LastUpdated] is not negative
    and none of [InvitedDate], [AcceptedDate], [CompletedDate] is later than
    it. *)
Theorem lastUpdated_bounds_dates rd out grp r :
  formatReviewData (Some rd) = Some out ->
  In grp (FormattedReviewData.Revisions out) ->
  In r (RevisionData.Reviewers grp) ->
  datesBounded r.
Proof.
  intros [= <-] Hg Hr. simpl in Hg.
  apply (output_invariant datesBounded _ _ _) with (3 := Hg) (4 := Hr).
  - intros id. unfold datesBounded. simpl. lia.
  - apply applyEvent_datesBounded.
Qed.

Lemma lastUpdated_bounds_dates_witness :
  datesBounded (ReviewerData.mk 1 5 0 0 10 true).
Proof.
  apply (lastUpdated_bounds_dates
           (mkData [ev 10 Invited 1 1; ev 5 Invited 1 1]) _
           (RevisionData.mk 1 true [ReviewerData.mk 1 5 0 0 10 true])
           (ReviewerData.mk 1 5 0 0 10 true) eq_refl);
    simpl; left; reflexivity.
Defined.

(** X3.  The output comes fully collapsed: every revision group and every
    reviewer state has [Collapsed = true]. *)
Theorem output_is_collapsed rd out grp :
  formatReviewData (Some rd) = Some out ->
  In grp (FormattedReviewData.Revisions out) ->
  RevisionData.Collapsed grp = true /\
  forall r, In r (RevisionData.Reviewers grp) -> ReviewerData.Collapsed r = true.
Proof.
  intros [= <-] Hg. simpl in Hg. split.
  - apply revisionsOf_In in Hg. destruct Hg as [entry [_ ->]]. reflexivity.
  - intros r Hr.
    apply (output_invariant (fun r => ReviewerData.Collapsed r = true) _ _ _)
      with (3 := Hg) (4 := Hr).
    + reflexivity.
    + intros e r0 H0. now rewrite applyEvent_Collapsed.
Qed.

Lemma output_is_collapsed_witness :
  RevisionData.Collapsed
    (RevisionData.mk 1 true [ReviewerData.mk 1 5 0 0 10 true]) = true /\
  ReviewerData.Collapsed (ReviewerData.mk 1 5 0 0 10 true) = true.
Proof.
  destruct (output_is_collapsed
              (mkData [ev 10 Invited 1 1; ev 5 Invited 1 1]) _
              (RevisionData.mk 1 true [ReviewerData.mk 1 5 0 0 10 true])
              eq_refl (or_introl eq_refl)) as [H1 H2].
  split; [exact H1|]. apply H2. simpl. left. reflexivity.
Defined.

Lemma reviewers_length rev (rm : ReviewerMap) :
  List.length (RevisionData.Reviewers (toRevisionData (rev, rm))) = List.length rm.
Proof.
  simpl. rewrite (Permutation_length (Array_sort_perm ReviewerData.LastUpdated _)).
  unfold JSObject.values. rewrite length_map.
  apply Permutation_length, entries_perm.
Qed.

(** X4.  Every revision group of the output has at least one reviewer, and
    every reviewer state of the output stems from an event of the input with
    the group's revision number and the reviewer's id. *)
Theorem output_stems_from_events rd out grp :
  formatReviewData (Some rd) = Some out ->
  In grp (FormattedReviewData.Revisions out) ->
  RevisionData.Reviewers grp <> [] /\
  forall r, In r (RevisionData.Reviewers grp) ->
    exists e, In e (ReviewData.ReviewEvents rd) /\
              ReviewEvent.Revision e = RevisionData.Id grp /\
              ReviewEvent.Id e = ReviewerData.Id r.
Proof.
  intros [= <-] Hg. simpl in Hg. split.
  - apply revisionsOf_In in Hg. destruct Hg as [[rev rm] [Hin ->]].
    apply (proj2 (wfMap_groupEvents _)) in Hin. destruct Hin as [_ Hne].
    intros E. apply (f_equal (@List.length _)) in E.
    rewrite reviewers_length in E. destruct rm; [contradiction|discriminate].
  - intros r Hr. pose proof (output_state _ _ _ Hg Hr) as H.
    assert (Hin : In (RevisionData.Id grp, ReviewerData.Id r)
                     (map key (ReviewData.ReviewEvents rd))).
    { apply lookup_present. rewrite lookup_groupEvents, H. discriminate. }
    apply in_map_iff in Hin. destruct Hin as [e [[= E1 E2] He]].
    exists e. auto.
Qed.

Lemma output_stems_from_events_witness :
  exists e, In e [ev 10 Invited 1 1; ev 5 Invited 1 1] /\
            ReviewEvent.Revision e = 1 /\ ReviewEvent.Id e = 1.
Proof.
  refine (proj2 (output_stems_from_events
                   (mkData [ev 10 Invited 1 1; ev 5 Invited 1 1]) _
                   (RevisionData.mk 1 true [ReviewerData.mk 1 5 0 0 10 true])
                   eq_refl (or_introl eq_refl))
            (ReviewerData.mk 1 5 0 0 10 true) (or_introl eq_refl)).
Defined.

(** X5.  The output has as many revision groups as the input has distinct
    revision numbers. *)
Theorem one_group_per_revision (rd : ReviewData.t) :
  exists out,
    formatReviewData (Some rd) = Some out /\
    List.length (FormattedReviewData.Revisions out)
    = List.length (nodup Z.eq_dec (map ReviewEvent.Revision (ReviewData.ReviewEvents rd))).
Proof.
  eexists. split; [reflexivity|]. simpl.
  set (es := ReviewData.ReviewEvents rd).
  pose proof (wfMap_groupEvents es) as Hwf.
  rewrite <- (length_map RevisionData.Id), revisionsOf_Ids.
  apply Permutation_length.
  rewrite (Array_sort_perm fst), entries_perm.
  apply NoDup_Permutation; [apply Hwf|apply NoDup_nodup|].
  intros rev. fold (JSObject.keys (groupEvents es)).
  rewrite nodup_In, (revision_present _ _ Hwf). split.
  - intros [id H]. apply lookup_present in H.
    apply in_map_iff in H. destruct H as [e [[= E _] He]].
    apply in_map_iff. exists e. auto.
  - intros H. apply in_map_iff in H. destruct H as [e [<- He]].
    exists (ReviewEvent.Id e). apply lookup_present.
    change (In (key e) (map key es)). now apply in_map.
Qed.

Lemma In_set_other {V} (o : JSObject.t V) k v k' v' :
  k' <> k -> (In (k', v') (JSObject.set o k v) <-> In (k', v') o).
Proof.
  intros Hne. induction o as [|[k0 v0] o IH]; simpl.
  - split; [|tauto]. intros [[= E _]|[]]. congruence.
  - destruct (Z.eqb_spec k0 k) as [->|Hne0]; simpl.
    + split; intros [[= E _]|H]; try congruence; now right.
    + rewrite IH. tauto.
Qed.

(** X6.  Appending one event to the input changes only the state of that
    event's key: the revision groups of the other revision numbers are the
    same groups, and in the group of the event's revision the states of the
    other reviewers are the same states. *)
Theorem appended_event_changes_only_its_key rd e out out' :
  formatReviewData (Some rd) = Some out ->
  formatReviewData (Some (withEvents rd (ReviewData.ReviewEvents rd ++ [e])))
  = Some out' ->
  (forall grp, RevisionData.Id grp <> ReviewEvent.Revision e ->
     (In grp (FormattedReviewData.Revisions out')
      <-> In grp (FormattedReviewData.Revisions out))) /\
  (forall rev r, (rev, ReviewerData.Id r) <> key e ->
     (inOutput out' rev r <-> inOutput out rev r)).
Proof.
  intros [= <-] [= <-]. simpl.
  set (es := ReviewData.ReviewEvents rd). split.
  - intros grp Hne. rewrite !revisionsOf_In, groupEvents_snoc.
    unfold forEach_body.
    split; intros [[rev rm] [Hin ->]]; exists (rev, rm); simpl in Hne;
      (split; [|reflexivity]).
    + now apply In_set_other in Hin.
    + now apply In_set_other.
  - assert (G : forall es0 rev r,
               inOutput (FormattedReviewData.mk
                           (ReviewData.CorrespondingAuthor rd)
                           (ReviewData.JournalAcronym rd)
                           (ReviewData.JournalName rd)
                           (ReviewData.LastUpdated rd)
                           (ReviewData.ManuscriptTitle rd)
                           (ReviewData.SubmissionDate rd)
                           (revisionsOf (groupEvents es0))) rev r
               <-> lookupReviewer (groupEvents es0) rev (ReviewerData.Id r) = Some r).
    { intros es0 rev r. unfold inOutput. simpl. split.
      - intros [grp [Hg [<- Hr]]]. rewrite lookup_groupEvents.
        now apply output_state.
      - intros H. apply lookup_output in H. exact H. }
    intros rev r Hne. rewrite !G, lookup_snoc. unfold foldKey.
    destruct (key_eqb_spec (key e) (rev, ReviewerData.Id r)) as [E|_];
      [congruence|reflexivity].
Qed.

Lemma appended_event_changes_only_its_key_witness :
  In (RevisionData.mk 1 true [ReviewerData.mk 1 10 0 0 10 true])
     [RevisionData.mk 1 true [ReviewerData.mk 1 10 0 0 10 true];
      RevisionData.mk 2 true [ReviewerData.mk 1 20 0 0 20 true]].
Proof.
  refine (proj2 (proj1 (appended_event_changes_only_its_key
                          (mkData [ev 10 Invited 1 1]) (ev 20 Invited 2 1) _ _
                          eq_refl eq_refl)
                   (RevisionData.mk 1 true [ReviewerData.mk 1 10 0 0 10 true]) _) _).
  - simpl. lia.
  - simpl. left. reflexivity.
Defined.

(** ** Status and counters, read off the events *)

Lemma truthy_last_date (p : ReviewEvent.t -> bool) l d :
  (forall e, In e l -> ReviewEvent.Date e <> 0) ->
  truthy (last (map ReviewEvent.Date (filter p l)) d) = existsb p l || truthy d.
Proof.
  revert d. induction l as [|e l IH]; intros d Hnz; [reflexivity|].
  cbn [filter existsb].
  assert (Hl : forall e0, In e0 l -> ReviewEvent.Date e0 <> 0)
    by (intros e0 H0; apply Hnz; now right).
  destruct (p e); cbn [map orb]; [|now apply IH].
  rewrite last_cons, (IH _ Hl).
  assert (E : truthy (ReviewEvent.Date e) = true).
  { unfold truthy. specialize (Hnz e (or_introl eq_refl)).
    now destruct (Z.eqb_spec (ReviewEvent.Date e) 0). }
  rewrite E. apply orb_true_r.
Qed.

Lemma eventsOf_In k e es : In e (eventsOf k es) <-> In e es /\ key e = k.
Proof.
  unfold eventsOf. rewrite filter_In.
  destruct (key_eqb_spec (key e) k); split; intros [H1 H2]; auto; discriminate.
Qed.

Lemma truthy_dateField es grp r k :
  (forall e, In e es -> ReviewEvent.Date e <> 0) ->
  In grp (revisionsOf (groupEvents es)) ->
  In r (RevisionData.Reviewers grp) ->
  truthy (dateField k r)
  = hasEvent k (RevisionData.Id grp, ReviewerData.Id r) es.
Proof.
  intros Hnz Hg Hr. pose proof (output_state _ _ _ Hg Hr) as H.
  apply (fold_dateField k) in H. rewrite H. unfold hasEvent.
  rewrite truthy_last_date.
  - replace (truthy (dateField k (newReviewer _))) with false by now destruct k.
    apply orb_false_r.
  - intros e He. apply eventsOf_In in He. now apply Hnz.
Qed.

Lemma some_kind_occurs l :
  l <> [] ->
  existsb (fun e => ReviewEventType_eqb (ReviewEvent.Event e) Completed) l = false ->
  existsb (fun e => ReviewEventType_eqb (ReviewEvent.Event e) Accepted) l = false ->
  existsb (fun e => ReviewEventType_eqb (ReviewEvent.Event e) Invited) l = true.
Proof.
  destruct l as [|e l]; [contradiction|]. intros _. simpl.
  destruct (ReviewEvent.Event e); simpl; try discriminate. reflexivity.
Qed.

(** X7.  When no event timestamp is zero, the status of a reviewer of the
    output is the highest stage for which its key has an event, wherever the
    event stands in the input: Completed with a completion event, else
    Accepted with an acceptance event, else Invited. *)
Theorem status_is_highest_stage_reached rd out grp r :
  formatReviewData (Some rd) = Some out ->
  (forall e, In e (ReviewData.ReviewEvents rd) -> ReviewEvent.Date e <> 0) ->
  In grp (FormattedReviewData.Revisions out) ->
  In r (RevisionData.Reviewers grp) ->
  getStatus r
  = if hasEvent Completed (RevisionData.Id grp, ReviewerData.Id r)
         (ReviewData.ReviewEvents rd)
    then StatusCompleted
    else if hasEvent Accepted (RevisionData.Id grp, ReviewerData.Id r)
              (ReviewData.ReviewEvents rd)
         then StatusAccepted
         else StatusInvited.
Proof.
  intros [= <-] Hnz Hg Hr. simpl in Hg.
  pose proof (truthy_dateField _ _ _ Completed Hnz Hg Hr) as HC.
  pose proof (truthy_dateField _ _ _ Accepted Hnz Hg Hr) as HA.
  pose proof (truthy_dateField _ _ _ Invited Hnz Hg Hr) as HI.
  simpl in HC, HA, HI. unfold getStatus. rewrite HC, HA, HI.
  destruct (hasEvent Completed _ _) eqn:EC; [reflexivity|].
  destruct (hasEvent Accepted _ _) eqn:EA; [reflexivity|].
  unfold hasEvent in *. rewrite some_kind_occurs; auto.
  intros E. pose proof (output_state _ _ _ Hg Hr) as H.
  rewrite foldKey_eventsOf, E in H. discriminate.
Qed.

Lemma status_is_highest_stage_reached_witness :
  getStatus (ReviewerData.mk 1 300 0 100 300 true) = StatusCompleted.
Proof.
  apply (status_is_highest_stage_reached
           (mkData [ev 100 Completed 1 1; ev 300 Invited 1 1]) _
           (RevisionData.mk 1 true [ReviewerData.mk 1 300 0 100 300 true])
           (ReviewerData.mk 1 300 0 100 300 true) eq_refl).
  - simpl. intros e [<-|[<-|[]]]; simpl; lia.
  - simpl. left. reflexivity.
  - simpl. left. reflexivity.
Defined.

Lemma countFor_filter k rs :
  countFor k rs = List.length (filter (fun r => truthy (dateField k r)) rs).
Proof. now destruct k. Qed.

Lemma lookup_in_group g rev rm id r :
  wfMap g -> In (rev, rm) g -> lookupReviewer g rev id = Some r ->
  In r (RevisionData.Reviewers (toRevisionData (rev, rm))).
Proof.
  intros [Hnd _] Hin. unfold lookupReviewer.
  rewrite (In_get _ _ _ Hnd Hin). intros H. apply get_In in H.
  simpl. rewrite (Array_sort_In ReviewerData.LastUpdated), values_In. now exists id.
Qed.

(** X8.  When no event timestamp is zero, the Invited, Accepted and
    Completed counters of a revision group of the output are the numbers of
    distinct reviewer ids that have, in that revision, an event of the
    respective kind. *)
Theorem counters_count_reviewers_with_event rd out grp k :
  formatReviewData (Some rd) = Some out ->
  (forall e, In e (ReviewData.ReviewEvents rd) -> ReviewEvent.Date e <> 0) ->
  In grp (FormattedReviewData.Revisions out) ->
  countFor k (RevisionData.Reviewers grp)
  = List.length (reviewersWith k (RevisionData.Id grp) (ReviewData.ReviewEvents rd)).
Proof.
  intros [= <-] Hnz Hg. simpl in Hg.
  set (es := ReviewData.ReviewEvents rd) in *.
  pose proof (wfMap_groupEvents es) as Hwf.
  rewrite countFor_filter, <- (length_map ReviewerData.Id).
  apply Permutation_length, NoDup_Permutation.
  - apply NoDup_map_filter.
    pose proof Hg as Hg'. apply revisionsOf_In in Hg'.
    destruct Hg' as [[rev rm] [Hin ->]].
    eapply Permutation_NoDup; [symmetry; eapply reviewers_Ids_perm; eauto|].
    now apply (proj2 Hwf) in Hin.
  - apply NoDup_nodup.
  - intros id. unfold reviewersWith.
    rewrite nodup_In, !in_map_iff. split.
    + intros [r [<- Hr]]. apply filter_In in Hr. destruct Hr as [Hr Ht].
      rewrite (truthy_dateField es grp r k Hnz Hg Hr) in Ht.
      unfold hasEvent in Ht. apply existsb_exists in Ht.
      destruct Ht as [e [He Hk]]. apply eventsOf_In in He.
      destruct He as [He [= E1 E2]]. exists e. split; [exact E2|].
      apply filter_In. split; [exact He|]. rewrite E1, Z.eqb_refl. exact Hk.
    + intros [e [<- He]]. apply filter_In in He. destruct He as [He Hk].
      apply andb_true_iff in Hk. destruct Hk as [Hrev Hk].
      apply Z.eqb_eq in Hrev.
      assert (Hp : lookupReviewer (groupEvents es) (RevisionData.Id grp)
                     (ReviewEvent.Id e) <> None).
      { apply lookup_present. rewrite <- Hrev. now apply (in_map key). }
      destruct (lookupReviewer _ _ _) as [r|] eqn:El; [|contradiction].
      pose proof (lookup_Id _ _ _ _ El) as Eid.
      pose proof Hg as Hg'. apply revisionsOf_In in Hg'.
      destruct Hg' as [[rev rm] [Hin Egrp]].
      assert (Hr : In r (RevisionData.Reviewers grp)).
      { rewrite Egrp. eapply lookup_in_group; eauto.
        rewrite Egrp in El. exact El. }
      exists r. split; [exact Eid|]. apply filter_In. split; [exact Hr|].
      rewrite (truthy_dateField es grp r k Hnz Hg Hr).
      unfold hasEvent. apply existsb_exists. exists e. split; [|exact Hk].
      apply eventsOf_In. split; [exact He|]. unfold key. congruence.
Qed.

Lemma counters_count_reviewers_with_event_witness :
  countFor Accepted [ReviewerData.mk 2 50 0 0 50 true;
                     ReviewerData.mk 1 100 200 0 200 true] = 1%nat.
Proof.
  apply (counters_count_reviewers_with_event
           (mkData [ev 100 Invited 1 1; ev 200 Accepted 1 1; ev 50 Invited 1 2]) _
           (RevisionData.mk 1 true [ReviewerData.mk 2 50 0 0 50 true;
                                    ReviewerData.mk 1 100 200 0 200 true])
           Accepted eq_refl).
  - simpl. intros e [<-|[<-|[<-|[]]]]; simpl; lia.
  - simpl. left. reflexivity.
Defined.

(** ** Counters and status on any list of reviewers *)

(** X9.  The Completed counter is the number of reviewers whose status is
    Completed, while the Accepted and Invited counters count every reviewer
    whose date of that stage is set, so they are at least the numbers of
    reviewers whose status is Accepted, respectively Invited; the four
    statuses partition the reviewers. *)
Theorem counters_and_status (rs : list ReviewerData.t) :
  getCompletedCount rs = statusCount StatusCompleted rs /\
  (statusCount StatusAccepted rs <= getAcceptedCount rs)%nat /\
  (statusCount StatusInvited rs <= getInvitedCount rs)%nat /\
  (statusCount StatusCompleted rs + statusCount StatusAccepted rs
   + statusCount StatusInvited rs + statusCount StatusUnknown rs
   = List.length rs)%nat.
Proof.
  unfold getCompletedCount, getAcceptedCount, getInvitedCount, statusCount.
  induction rs as [|r rs IH]; [simpl; auto|].
  destruct IH as [H1 [H2 [H3 H4]]].
  cbn [filter].
  pose proof (eq_refl (getStatus r)) as E. unfold getStatus at 2 in E.
  destruct (truthy (ReviewerData.CompletedDate r));
    destruct (truthy (ReviewerData.AcceptedDate r));
    destruct (truthy (ReviewerData.InvitedDate r));
    rewrite E; cbn [StatusLabel_eqb List.length];
    (split; [|split; [|split]]); lia.
Qed.

(** X10.  Expanding or collapsing reviewers changes neither their status nor
    any of the three counters, and toggling a reviewer or a revision twice
    gives it back unchanged. *)
Theorem toggles_keep_status_and_counters (rs : list ReviewerData.t) :
  map getStatus (map toggleReviewer rs) = map getStatus rs /\
  getInvitedCount (map toggleReviewer rs) = getInvitedCount rs /\
  getAcceptedCount (map toggleReviewer rs) = getAcceptedCount rs /\
  getCompletedCount (map toggleReviewer rs) = getCompletedCount rs /\
  map toggleReviewer (map toggleReviewer rs) = rs /\
  (forall g, toggleRevision (toggleRevision g) = g).
Proof.
  unfold getInvitedCount, getAcceptedCount, getCompletedCount.
  repeat split.
  - rewrite map_map. now apply map_ext.
  - induction rs as [|r rs IH]; [reflexivity|]. cbn [map filter].
    change (ReviewerData.InvitedDate (toggleReviewer r))
      with (ReviewerData.InvitedDate r).
    destruct (truthy _); cbn [List.length]; now rewrite IH.
  - induction rs as [|r rs IH]; [reflexivity|]. cbn [map filter].
    change (ReviewerData.AcceptedDate (toggleReviewer r))
      with (ReviewerData.AcceptedDate r).
    destruct (truthy _); cbn [List.length]; now rewrite IH.
  - induction rs as [|r rs IH]; [reflexivity|]. cbn [map filter].
    change (ReviewerData.CompletedDate (toggleReviewer r))
      with (ReviewerData.CompletedDate r).
    destruct (truthy _); cbn [List.length]; now rewrite IH.
  - rewrite map_map. rewrite <- (map_id rs) at 2. apply map_ext.
    intros [i a b c d col]. unfold toggleReviewer. simpl. now rewrite negb_involutive.
  - intros [i col l]. unfold toggleRevision. simpl. now rewrite negb_involutive.
Qed.

(** ** [getDaysSince] *)

(** X11.  For a timestamp a [Date] can hold, [getDaysSince] returns the
    number [d] of whole days from the timestamp to the clock reading, rounded
    down: [d] days have elapsed and [d + 1] have not.  It is negative exactly
    when the timestamp lies after the clock reading. *)
Theorem getDaysSince_whole_days now timestamp :
  validTimeValue (timestamp * 1000) = true ->
  Z.abs (now - timestamp * 1000) < 2 ^ 53 ->
  exists d,
    getDaysSince now timestamp = Some d /\
    d * 86400000 <= now - timestamp * 1000 < (d + 1) * 86400000 /\
    (d < 0 <-> now < timestamp * 1000).
Proof.
  intros Hv _. unfold getDaysSince. rewrite Hv.
  change (1000 * 60 * 60 * 24) with 86400000.
  eexists. split; [reflexivity|].
  pose proof (Z.div_mod (now - timestamp * 1000) 86400000 ltac:(lia)) as Hdm.
  pose proof (Z.mod_pos_bound (now - timestamp * 1000) 86400000 ltac:(lia)) as Hb.
  set (d := (now - timestamp * 1000) / 86400000) in *.
  split; [lia|]. split; intros H; [lia|].
  destruct (Z.lt_ge_cases d 0) as [Hd|Hd]; [exact Hd|]. nia.
Qed.

Lemma getDaysSince_whole_days_witness :
  exists d, getDaysSince 1700000000000 1600000000 = Some d /\
            d * 86400000 <= 100000000000 < (d + 1) * 86400000.
Proof.
  destruct (getDaysSince_whole_days 1700000000000 1600000000)
    as [d [H1 [H2 _]]].
  - reflexivity.
  - simpl. lia.
  - exists d. split; [exact H1|exact H2].
Defined.

(** X12.  At one clock reading, a later timestamp never gives more days than
    an earlier one. *)
Theorem getDaysSince_antitone now t1 t2 d1 d2 :
  t1 <= t2 ->
  Z.abs (now - t1 * 1000) < 2 ^ 53 ->
  Z.abs (now - t2 * 1000) < 2 ^ 53 ->
  getDaysSince now t1 = Some d1 ->
  getDaysSince now t2 = Some d2 ->
  d2 <= d1.
Proof.
  intros Hle _ _. unfold getDaysSince.
  destruct (validTimeValue (t1 * 1000)); [|discriminate].
  destruct (validTimeValue (t2 * 1000)); [|discriminate].
  intros [= <-] [= <-]. apply Z.div_le_mono; lia.
Qed.

Lemma getDaysSince_antitone_witness : 1041 <= 1157.
Proof.
  apply (getDaysSince_antitone 1700000000000 1600000000 1610000000 1157 1041).
  - lia.
  - simpl. lia.
  - simpl. lia.
  - reflexivity.
  - reflexivity.
Defined.

(** ** Zero timestamps *)

Lemma last_all_zero l : (forall x, In x l -> x = 0) -> last l 0 = 0.
Proof.
  induction l as [|x l IH]; intros H; [reflexivity|].
  rewrite last_cons. rewrite (H x (or_introl eq_refl)).
  apply IH. intros y Hy. apply H. now right.
Qed.

(** X13.  A reviewer all of whose events carry the timestamp 0 is listed in
    the output with no date set: its three dates and [LastUpdated] are 0 and
    its status is Unknown. *)
Theorem zero_timestamps_leave_no_trace rd out grp r :
  formatReviewData (Some rd) = Some out ->
  In grp (FormattedReviewData.Revisions out) ->
  In r (RevisionData.Reviewers grp) ->
  (forall e, In e (eventsOf (RevisionData.Id grp, ReviewerData.Id r)
                            (ReviewData.ReviewEvents rd)) ->
             ReviewEvent.Date e = 0) ->
  (forall k, dateField k r = 0) /\
  ReviewerData.LastUpdated r = 0 /\
  getStatus r = StatusUnknown.
Proof.
  intros [= <-] Hg Hr Hz. simpl in Hg.
  pose proof (output_state _ _ _ Hg Hr) as H.
  assert (Hf : forall k, dateField k r = 0).
  { intros k. rewrite (fold_dateField k _ _ _ _ H).
    replace (dateField k (newReviewer _)) with 0 by now destruct k.
    apply last_all_zero. intros x Hx. apply in_map_iff in Hx.
    destruct Hx as [e [<- He]]. apply filter_In in He. apply Hz, He. }
  split; [exact Hf|]. split.
  - pose proof (fold_LastUpdated _ _ _ _ H) as HL.
    pose proof (fold_max_is_max
                  (map ReviewEvent.Date
                     (eventsOf (RevisionData.Id grp, ReviewerData.Id r)
                               (ReviewData.ReviewEvents rd))) 0) as [Hin _].
    rewrite <- HL in Hin. destruct Hin as [E|Hin]; [now symmetry|].
    apply in_map_iff in Hin. destruct Hin as [e [<- He]]. now apply Hz.
  - pose proof (Hf Completed) as HC. pose proof (Hf Accepted) as HA.
    pose proof (Hf Invited) as HI. simpl in HC, HA, HI.
    unfold getStatus. now rewrite HC, HA, HI.
Qed.

Lemma zero_timestamps_leave_no_trace_witness :
  getStatus (ReviewerData.mk 1 0 0 0 0 true) = StatusUnknown.
Proof.
  refine (proj2 (proj2 (zero_timestamps_leave_no_trace
                          (mkData [ev 0 Invited 1 1; ev 0 Accepted 1 1]) _
                          (RevisionData.mk 1 true [ReviewerData.mk 1 0 0 0 0 true])
                          (ReviewerData.mk 1 0 0 0 0 true) eq_refl _ _ _))).
  - simpl. left. reflexivity.
  - simpl. left. reflexivity.
  - simpl. intros e [<-|[<-|[]]]; reflexivity.
Defined.
